(** * Telegraph article builder: position keys, tag converters, builder

    A shallow embedding of [work_issue_1.py].  The Python builtins the
    program relies on ([str], [str.rjust], [dict], [list.sort], exceptions
    and [try]/[except]) live in [Module Py]; the part of BeautifulSoup the
    program calls ([find], [find_all], [.string], [new_tag], [append],
    [decode]) lives in [Module Bs4]; the program itself follows with the
    names it has in the source, first with tags as values and converters
    as functions, then with tags as objects that [append] moves and
    converters as callables with state.

    Strings are byte strings: a Python [str] is represented by its UTF-8
    encoding, on which byte-wise lexicographic order coincides with
    Python's code-point order. *)

From Stdlib Require Import ZArith List String Ascii Bool Lia.
From Stdlib Require Import Sorting.Sorted Sorting.Permutation.

Set Warnings "-register-all".
Import ListNotations.

Local Open Scope string_scope.
Local Open Scope Z_scope.

(** ** Python builtins *)

Module Py.

(** *** Exceptions and the class hierarchy

    The classes are those the program defines (lines 8-19) and the builtin
    ones that its calls can raise.  [base] is read off the [class X(Y)]
    headers. *)

Inductive pyclass : Type :=
| cls_object
| cls_BaseException
| cls_Exception
| cls_TypeError
| cls_AttributeError
| cls_LookupError
| cls_KeyError
| cls_PublishingError
| cls_ConvertTagError
| cls_HTMLParseError.

Definition pyclass_eqb (a b : pyclass) : bool :=
  match a, b with
  | cls_object, cls_object
  | cls_BaseException, cls_BaseException
  | cls_Exception, cls_Exception
  | cls_TypeError, cls_TypeError
  | cls_AttributeError, cls_AttributeError
  | cls_LookupError, cls_LookupError
  | cls_KeyError, cls_KeyError
  | cls_PublishingError, cls_PublishingError
  | cls_ConvertTagError, cls_ConvertTagError
  | cls_HTMLParseError, cls_HTMLParseError => true
  | _, _ => false
  end.

(** [class PublishingError(Exception)], [class ConvertTagError(PublishingError)],
    [class HTMLParseError(Exception)]. *)
Definition base (c : pyclass) : option pyclass :=
  match c with
  | cls_object => None
  | cls_BaseException => Some cls_object
  | cls_Exception => Some cls_BaseException
  | cls_TypeError => Some cls_Exception
  | cls_AttributeError => Some cls_Exception
  | cls_LookupError => Some cls_Exception
  | cls_KeyError => Some cls_LookupError
  | cls_PublishingError => Some cls_Exception
  | cls_ConvertTagError => Some cls_PublishingError
  | cls_HTMLParseError => Some cls_Exception
  end.

(** The method resolution order of a class: the class, then its base's.
    The hierarchy has depth at most four, so [depth] steps reach [object]. *)
Fixpoint mro_from (depth : nat) (c : pyclass) : list pyclass :=
  match depth with
  | O => [c]
  | S d => c :: match base c with
                | Some b => mro_from d b
                | None => []
                end
  end.

Definition mro (c : pyclass) : list pyclass := mro_from 4 c.

Definition issubclass (c ancestor : pyclass) : bool :=
  existsb (pyclass_eqb ancestor) (mro c).

(** Exception values.  The program's own carry the constructor arguments
    of the source ([message] may be [None]: line 61 passes [tag.string]);
    the builtin ones are kept by class, their text depends on the
    interpreter and library version. *)
Inductive exn : Type :=
| TypeError
| AttributeError
| KeyError (key : string)
| PublishingError (message : string)
| ConvertTagError (tag_name : string) (tag_string_number : Z)
| HTMLParseError (message : option string).

Definition type_of (e : exn) : pyclass :=
  match e with
  | TypeError => cls_TypeError
  | AttributeError => cls_AttributeError
  | KeyError _ => cls_KeyError
  | PublishingError _ => cls_PublishingError
  | ConvertTagError _ _ => cls_ConvertTagError
  | HTMLParseError _ => cls_HTMLParseError
  end.

Definition isinstance (e : exn) (c : pyclass) : bool :=
  issubclass (type_of e) c.

(** A computation returns a value or raises. *)
Inductive result (A : Type) : Type :=
| Ok (a : A)
| Raise (e : exn).

Arguments Ok {A} a.
Arguments Raise {A} e.

Definition bind {A B : Type} (r : result A) (k : A -> result B) : result B :=
  match r with
  | Ok a => k a
  | Raise e => Raise e
  end.

(** [for x in items: s = body(s, x)], leaving the loop at the first raise. *)
Fixpoint for_loop {A S : Type} (items : list A) (body : S -> A -> result S)
  (s : S) : result S :=
  match items with
  | [] => Ok s
  | x :: rest => bind (body s x) (for_loop rest body)
  end.

(** [try: body except c as exc: handler]. *)
Definition try_except {A : Type} (body : result A) (c : pyclass)
  (handler : exn -> result A) : result A :=
  match body with
  | Ok a => Ok a
  | Raise e => if isinstance e c then handler e else Raise e
  end.

(** *** Values that may be [None] *)

Inductive pyint : Type :=
| PyNone
| PyInt (z : Z).

(** *** [str] of an integer *)

Definition digit_char (d : Z) : ascii := ascii_of_N (48 + Z.to_N d).

(** Decimal digits of a non-negative integer, least significant first,
    pushed on [acc]. *)
Fixpoint digits_acc (fuel : nat) (n : Z) (acc : string) : string :=
  match fuel with
  | O => acc
  | S f =>
      let acc' := String (digit_char (n mod 10)) acc in
      if n <? 10 then acc' else digits_acc f (n / 10) acc'
  end.

(** A number has no more decimal digits than binary ones, so the fuel
    lasts: more of it changes nothing ([str_nonneg_fuel_lasts]). *)
Definition str_nonneg (n : Z) : string :=
  digits_acc (S (Z.to_nat (Z.log2 n))) n "".

Definition str_int (z : Z) : string :=
  if z <? 0 then String "-" (str_nonneg (- z)) else str_nonneg z.

(** [str(x)] for an integer or [None]. *)
Definition str (v : pyint) : string :=
  match v with
  | PyNone => "None"
  | PyInt z => str_int z
  end.

(** [str(x)] for a string or [None], as an f-string field renders it. *)
Definition str_opt (v : option string) : string :=
  match v with
  | None => "None"
  | Some s => s
  end.

(** *** [str.rjust] and [str.join] *)

Fixpoint repeat_char (c : ascii) (n : nat) : string :=
  match n with
  | O => ""
  | S k => String c (repeat_char c k)
  end.

(** [s.rjust(width, fillchar)]: [s] itself when it is already [width]
    long.  The strings it is called on here, numerals and [None], are
    ASCII, so bytes count as characters do. *)
Definition rjust (s : string) (width : nat) (fillchar : ascii) : string :=
  repeat_char fillchar (width - String.length s) ++ s.

(** [sep.join(parts)]. *)
Fixpoint join (sep : string) (parts : list string) : string :=
  match parts with
  | [] => ""
  | [p] => p
  | p :: rest => p ++ sep ++ join sep rest
  end.

(** *** [dict] with string keys

    Insertion-ordered, keys unique: an association list. *)

Definition dict (V : Type) : Type := list (string * V).

Fixpoint dict_get {V : Type} (d : dict V) (k : string) : option V :=
  match d with
  | [] => None
  | (k', v) :: rest => if String.eqb k k' then Some v else dict_get rest k
  end.

(** [d[k] = v]: an existing key keeps its place. *)
Fixpoint dict_set {V : Type} (d : dict V) (k : string) (v : V) : dict V :=
  match d with
  | [] => [(k, v)]
  | (k', v') :: rest =>
      if String.eqb k k' then (k', v) :: rest else (k', v') :: dict_set rest k v
  end.

(** [d.update(other)]. *)
Definition dict_update {V : Type} (d other : dict V) : dict V :=
  fold_left (fun acc kv => dict_set acc (fst kv) (snd kv)) other d.

(** [d | other]: a copy of [d] updated with [other]. *)
Definition dict_or {V : Type} (d other : dict V) : dict V :=
  dict_update d other.

(** [list(d)]: the keys in insertion order. *)
Definition dict_keys {V : Type} (d : dict V) : list string := map fst d.

(** [d[k]]. *)
Definition dict_getitem {V : Type} (d : dict V) (k : string) : result V :=
  match dict_get d k with
  | Some v => Ok v
  | None => Raise (KeyError k)
  end.

(** [k in names], for a list of strings. *)
Definition str_in (k : string) (names : list string) : bool :=
  existsb (String.eqb k) names.

(** *** [list.sort] on strings

    [list.sort] is a stable sort under [<]; an insertion sort that puts an
    element after the ones not greater than it is one. *)

Fixpoint insert_sorted (x : string) (l : list string) : list string :=
  match l with
  | [] => [x]
  | y :: rest =>
      if String.ltb x y then x :: y :: rest else y :: insert_sorted x rest
  end.

Definition sort (l : list string) : list string :=
  fold_left (fun acc x => insert_sorted x acc) l [].

End Py.

Import Py.

Declare Scope py_scope.
Notation "x <- c ;; k" := (bind c (fun x => k))
  (at level 61, c at next level, right associativity) : py_scope.
Local Open Scope py_scope.

(** ** The BeautifulSoup tree

    Documents made of tags and text.  A tag carries the line and column the
    parser saw it at; tags made by [new_tag] carry [None] there.  An
    attribute is a string, or a list of strings for the multi-valued ones
    ([class]). *)

Module Bs4.

Inductive attr_value : Type :=
| AStr (s : string)
| AList (l : list string).

Inductive element : Type :=
| NavigableString (s : string)
| Tag (name : string) (attrs : dict attr_value) (sourceline sourcepos : pyint)
    (contents : list element)
| BeautifulSoup (contents : list element).

Definition contents (e : element) : list element :=
  match e with
  | NavigableString _ => []
  | Tag _ _ _ _ cs => cs
  | BeautifulSoup cs => cs
  end.

Definition attrs (e : element) : dict attr_value :=
  match e with
  | Tag _ a _ _ _ => a
  | _ => []
  end.

Definition sourceline (e : element) : pyint :=
  match e with
  | Tag _ _ l _ _ => l
  | _ => PyNone
  end.

Definition sourcepos (e : element) : pyint :=
  match e with
  | Tag _ _ _ p _ => p
  | _ => PyNone
  end.

(** [tag.get(key, default)]. *)
Definition get (e : element) (key : string) (default : option attr_value)
  : option attr_value :=
  match dict_get (attrs e) key with
  | Some v => Some v
  | None => default
  end.

(** [tag.attrs = new_attrs]. *)
Definition set_attrs (e : element) (new_attrs : dict attr_value) : element :=
  match e with
  | Tag n _ l p cs => Tag n new_attrs l p cs
  | _ => e
  end.

(** [tag.descendants]: every node below [e], in document order. *)
Fixpoint descendants (e : element) : list element :=
  match e with
  | NavigableString _ => []
  | Tag _ _ _ _ cs => flat_map (fun c => c :: descendants c) cs
  | BeautifulSoup cs => flat_map (fun c => c :: descendants c) cs
  end.

(** How a search value is matched against an attribute: a multi-valued
    attribute matches when one of its values does, or when the values
    joined by spaces do; an absent attribute never matches a non-empty
    string. *)
Definition _matches (markup : option attr_value) (match_against : string)
  : bool :=
  match markup with
  | None => String.eqb match_against ""
  | Some (AStr s) => String.eqb s match_against
  | Some (AList l) =>
      existsb (fun item => String.eqb item match_against) l
      || String.eqb (join " " l) match_against
  end.

Definition matches_tag (name : string) (criteria : list (string * string))
  (e : element) : bool :=
  match e with
  | Tag n _ _ _ _ =>
      String.eqb n name
      && forallb (fun kv => _matches (get e (fst kv) None) (snd kv)) criteria
  | _ => false
  end.

(** [tag.find_all(name, attrs)] and [tag.find(name, attrs)]. *)
Definition find_all (name : string) (criteria : list (string * string))
  (e : element) : list element :=
  filter (matches_tag name criteria) (descendants e).

Definition find (name : string) (criteria : list (string * string))
  (e : element) : option element :=
  hd_error (find_all name criteria e).

(** [tag.string]: the text of a node that has exactly one child, followed
    through single-child tags; [None] otherwise. *)
Fixpoint string_ (e : element) : option string :=
  match e with
  | NavigableString s => Some s
  | Tag _ _ _ _ [c] => string_ c
  | BeautifulSoup [c] => string_ c
  | _ => None
  end.

(** [tag.string = new_string]: the contents are replaced by one text node
    holding a copy of the text.  Building that node from [None] raises
    [TypeError]. *)
Definition set_string (e : element) (new_string : option string)
  : result element :=
  match new_string with
  | None => Raise TypeError
  | Some s =>
      Ok match e with
         | Tag n a l p _ => Tag n a l p [NavigableString s]
         | BeautifulSoup _ => BeautifulSoup [NavigableString s]
         | NavigableString _ => e
         end
  end.

(** [soup.new_tag(name)]. *)
Definition new_tag (name : string) : element := Tag name [] PyNone PyNone [].

(** [tag.append(child)], for a [child] that has no parent yet: a tree of
    values has no notion of a tag that sits somewhere else already.
    [append_object] below is [append] on objects, where it moves the
    child. *)
Definition append (e child : element) : element :=
  match e with
  | Tag n a l p cs => Tag n a l p (cs ++ [child])
  | BeautifulSoup cs => BeautifulSoup (cs ++ [child])
  | NavigableString _ => e
  end.

(** [a == b] on nodes: same name, same attributes, equal children in
    order; the source position takes no part. *)
Definition attr_value_eqb (a b : attr_value) : bool :=
  match a, b with
  | AStr s, AStr t => String.eqb s t
  | AList l, AList m =>
      Nat.eqb (List.length l) (List.length m)
      && forallb (fun st => String.eqb (fst st) (snd st)) (combine l m)
  | _, _ => false
  end.

Definition attrs_eqb (a b : dict attr_value) : bool :=
  Nat.eqb (List.length a) (List.length b)
  && forallb (fun kv => match dict_get b (fst kv) with
                        | Some v => attr_value_eqb (snd kv) v
                        | None => false
                        end) a.

Fixpoint element_eqb (a b : element) : bool :=
  let fix all_eqb (l m : list element) : bool :=
    match l, m with
    | [], [] => true
    | x :: l', y :: m' => element_eqb x y && all_eqb l' m'
    | _, _ => false
    end in
  match a, b with
  | NavigableString s, NavigableString t => String.eqb s t
  | Tag n1 a1 _ _ c1, Tag n2 a2 _ _ c2 =>
      String.eqb n1 n2 && attrs_eqb a1 a2 && all_eqb c1 c2
  | BeautifulSoup c1, BeautifulSoup c2 => all_eqb c1 c2
  | _, _ => false
  end.

(** *** Serialisation ([str(tag)], [tag.decode()]) with the default
    formatter: [&], [<] and [>] are escaped, the attributes are written
    sorted by name, their values as they are stored. *)

Definition substitute_char (c : ascii) : string :=
  if Ascii.eqb c "&" then "&amp;"
  else if Ascii.eqb c "<" then "&lt;"
  else if Ascii.eqb c ">" then "&gt;"
  else String c "".

Fixpoint substitute_xml (s : string) : string :=
  match s with
  | EmptyString => ""
  | String c rest => substitute_char c ++ substitute_xml rest
  end.

Fixpoint contains_char (c : ascii) (s : string) : bool :=
  match s with
  | EmptyString => false
  | String c' rest => Ascii.eqb c c' || contains_char c rest
  end.

(** The double quote character. *)
Definition dquote : ascii := ascii_of_N 34.

Fixpoint replace_dquote (s : string) : string :=
  match s with
  | EmptyString => ""
  | String c rest =>
      (if Ascii.eqb c dquote then "&quot;" else String c "")
      ++ replace_dquote rest
  end.

Definition quoted_attribute_value (value : string) : string :=
  if contains_char dquote value then
    if contains_char "'" value
    then String dquote (replace_dquote value ++ String dquote "")
    else "'" ++ value ++ "'"
  else String dquote (value ++ String dquote "").

Definition decode_attr (kv : string * attr_value) : string :=
  let val := match snd kv with
             | AStr s => s
             | AList l => join " " l
             end in
  " " ++ fst kv ++ "=" ++ quoted_attribute_value (substitute_xml val).

(** [sorted(tag.attrs.items())]: by name, the names being distinct. *)
Fixpoint insert_attr (kv : string * attr_value) (l : dict attr_value)
  : dict attr_value :=
  match l with
  | [] => [kv]
  | kv' :: rest =>
      if String.ltb (fst kv) (fst kv') then kv :: kv' :: rest
      else kv' :: insert_attr kv rest
  end.

Definition sorted_attrs (a : dict attr_value) : dict attr_value :=
  fold_left (fun acc kv => insert_attr kv acc) a [].

(** The tags the HTML tree builder writes as [<name/>] when they are empty. *)
Definition empty_element_tags : list string :=
  ["area"; "base"; "br"; "col"; "embed"; "hr"; "img"; "input"; "keygen";
   "link"; "menuitem"; "meta"; "param"; "source"; "track"; "wbr";
   "basefont"; "bgsound"; "command"; "frame"; "image"; "isindex"; "nextid";
   "spacer"].

Fixpoint decode (e : element) : string :=
  match e with
  | NavigableString s => substitute_xml s
  | BeautifulSoup cs => String.concat "" (map decode cs)
  | Tag name a _ _ cs =>
      let attribute_string :=
        String.concat "" (map decode_attr (sorted_attrs a)) in
      match cs with
      | [] =>
          if str_in name empty_element_tags
          then "<" ++ name ++ attribute_string ++ "/>"
          else "<" ++ name ++ attribute_string ++ "></" ++ name ++ ">"
      | _ =>
          "<" ++ name ++ attribute_string ++ ">"
          ++ String.concat "" (map decode cs) ++ "</" ++ name ++ ">"
      end
  end.

(** [str(x)] for a tag or [None]. *)
Definition str_tag (e : option element) : string :=
  match e with
  | None => "None"
  | Some t => decode t
  end.

End Bs4.

Import Bs4.

(** ** The program *)

(** The text an exception of the program carries ([str(exc)]), from the
    [__init__] methods of lines 12-19; [None] for the builtin ones, whose
    text is the interpreter's. *)
Definition exn_str (e : exn) : option string :=
  match e with
  | ConvertTagError tag_name tag_string_number =>
      Some ("При конвертации тега '" ++ tag_name ++ "' в строке "
            ++ str_int tag_string_number ++ " произошла ошибка")
  | HTMLParseError message =>
      Some ("Ошибка при парсинге HTML документа: " ++ str_opt message)
  | PublishingError message => Some message
  | KeyError _ => None
  | TypeError => None
  | AttributeError => None
  end.

(** [class TelegraphPage]: [title] is whatever [tag.get("content", None)]
    returned; [url] and [path] start as [None]. *)
Record TelegraphPage : Type := mkTelegraphPage {
  title : option attr_value;
  html : element;
  url : option string;
  path : option string
}.

Definition TelegraphPage_init (title : option attr_value) (html : element)
  : TelegraphPage :=
  mkTelegraphPage title html None None.

(** A double quote and a line feed, for writing markup. *)
Definition dq : string := String dquote "".
Definition nl : string := String (ascii_of_N 10) "".

(** The test fixtures of lines 35-44. *)
Module BlockquoteTag.

Definition source : string :=
  "<blockquote class=" ++ dq
  ++ "article_decoration_first article_decoration_last" ++ dq
  ++ ">Будут ли разные виды феодализма?</blockquote>".

Definition result : string :=
  "<blockquote >Будут ли разные виды феодализма?</blockquote>".

End BlockquoteTag.

Module BlockquoteTagWithChildStrong.

Definition source : string :=
  "<blockquote class=" ++ dq ++ "article_decoration_first" ++ dq
  ++ ">«<strong class=" ++ dq ++ dq
  ++ ">адАккарийский народ</strong>!</blockquote>".

Definition result : string :=
  "<blockquote >«<strong>адАккарийский народ</strong>!</blockquote>".

End BlockquoteTagWithChildStrong.

(** Concrete documents: their markup, and the tree
    [BeautifulSoup(markup, 'html.parser')] builds for it.  Lines count from
    1, columns from 0, in characters. *)
Module Examples.

Definition BlockquoteTag_source : element :=
  BeautifulSoup
    [Tag "blockquote"
       [("class", AList ["article_decoration_first"; "article_decoration_last"])]
       (PyInt 1) (PyInt 0)
       [NavigableString "Будут ли разные виды феодализма?"]].

Definition BlockquoteTag_result : element :=
  BeautifulSoup
    [Tag "blockquote" [] (PyInt 1) (PyInt 0)
       [NavigableString "Будут ли разные виды феодализма?"]].

Definition BlockquoteTagWithChildStrong_source : element :=
  BeautifulSoup
    [Tag "blockquote" [("class", AList ["article_decoration_first"])]
       (PyInt 1) (PyInt 0)
       [NavigableString "«";
        Tag "strong" [("class", AList [])] (PyInt 1) (PyInt 46)
          [NavigableString "адАккарийский народ"];
        NavigableString "!"]].

Definition BlockquoteTagWithChildStrong_result : element :=
  BeautifulSoup
    [Tag "blockquote" [] (PyInt 1) (PyInt 0)
       [NavigableString "«";
        Tag "strong" [] (PyInt 1) (PyInt 14)
          [NavigableString "адАккарийский народ"];
        NavigableString "!"]].

(** A body with two quotes, the first at line 2 column 5, the second at
    line 5 column 1; the body tag itself starts at column [col] of line 1.
    The parser keeps a text that is white space only as one line feed. *)
Definition quotes_markup : string :=
  "<body>" ++ nl
  ++ "     <blockquote class='article_decoration_first'>first</blockquote>"
  ++ nl ++ nl ++ nl
  ++ " <blockquote class='article_decoration_last'>second</blockquote></body>".

Definition quotes_body (col : Z) : element :=
  Tag "body" [] (PyInt 1) (PyInt col)
    [NavigableString nl;
     Tag "blockquote" [("class", AList ["article_decoration_first"])]
       (PyInt 2) (PyInt 5) [NavigableString "first"];
     NavigableString nl;
     Tag "blockquote" [("class", AList ["article_decoration_last"])]
       (PyInt 5) (PyInt 1) [NavigableString "second"]].

(** A page with a title and the two quotes. *)
Definition two_quotes_html : string :=
  "<meta property='og:title' content='Title'>" ++ quotes_markup.

Definition two_quotes : element :=
  BeautifulSoup
    [Tag "meta" [("property", AStr "og:title"); ("content", AStr "Title")]
       (PyInt 1) (PyInt 0) [];
     quotes_body 42].

(** The same page, its title tag without [content]. *)
Definition title_without_content_html : string :=
  "<meta property='og:title'>" ++ quotes_markup.

Definition title_without_content : element :=
  BeautifulSoup
    [Tag "meta" [("property", AStr "og:title")] (PyInt 1) (PyInt 0) [];
     quotes_body 26].

(** A page with a title and no body. *)
Definition no_body_html : string :=
  "<meta property='og:title' content='Title'>".

Definition no_body : element :=
  BeautifulSoup
    [Tag "meta" [("property", AStr "og:title"); ("content", AStr "Title")]
       (PyInt 1) (PyInt 0) []].

(** A page whose title tag has no [content] and whose body holds a quote
    with a nested tag. *)
Definition nested_quote_html : string :=
  "<meta property='og:title'><body>"
  ++ "<blockquote class='article_decoration_first'>«"
  ++ "<strong class=''>X</strong>!</blockquote></body>".

Definition nested_quote : element :=
  BeautifulSoup
    [Tag "meta" [("property", AStr "og:title")] (PyInt 1) (PyInt 0) [];
     Tag "body" [] (PyInt 1) (PyInt 26)
       [Tag "blockquote" [("class", AList ["article_decoration_first"])]
          (PyInt 1) (PyInt 32)
          [NavigableString "«";
           Tag "strong" [("class", AList [])] (PyInt 1) (PyInt 78)
             [NavigableString "X"];
           NavigableString "!"]]].

(** A quote with an [id] next to its [class]. *)
Definition quote_with_id_html : string :=
  "<blockquote id='q1' class='article_decoration_first'>text</blockquote>".

Definition quote_with_id : element :=
  BeautifulSoup
    [Tag "blockquote"
       [("id", AStr "q1"); ("class", AList ["article_decoration_first"])]
       (PyInt 1) (PyInt 0) [NavigableString "text"]].

(** The parser on the markup above; nothing else is parsed here, and any
    other markup reads as the empty document. *)
Definition html_parser (markup : string) : element :=
  if String.eqb markup BlockquoteTag.source then BlockquoteTag_source
  else if String.eqb markup BlockquoteTag.result then BlockquoteTag_result
  else if String.eqb markup BlockquoteTagWithChildStrong.source
  then BlockquoteTagWithChildStrong_source
  else if String.eqb markup BlockquoteTagWithChildStrong.result
  then BlockquoteTagWithChildStrong_result
  else if String.eqb markup two_quotes_html then two_quotes
  else if String.eqb markup title_without_content_html
  then title_without_content
  else if String.eqb markup no_body_html then no_body
  else if String.eqb markup quote_with_id_html then quote_with_id
  else if String.eqb markup nested_quote_html then nested_quote
  else BeautifulSoup [].

(** What [convert_blockquote] makes of the two quotes. *)
Definition two_quotes_converted : dict element :=
  [("00000020000501",
    Tag "blockquote" [] PyNone PyNone [NavigableString "first"]);
   ("00000050000101",
    Tag "blockquote" [] PyNone PyNone [NavigableString "second"])].



(** A converter that fails on a tag, the way the error taxonomy has it. *)
Definition convert_failing : element -> Py.result (option (dict element)) :=
  fun _ => Raise (ConvertTagError "blockquote" 2).

End Examples.

(** [get_tag_position(line, position, sequence)], lines 104-109. *)
Definition get_tag_position (line position sequence : pyint) : string :=
  let sequence := match sequence with
                  | PyNone => PyInt 0
                  | PyInt _ => sequence
                  end in
  join "" [rjust (str line) 7 "0"
           ++ rjust (str position) 5 "0"
           ++ rjust (str sequence) 2 "0"].

(** The default of the third parameter, [sequence: int = 1]. *)
Definition sequence_default : pyint := PyInt 1.

(** A call of [get_tag_position] that passes [sequence] or leaves it out. *)
Definition get_tag_position_call (line position : pyint)
  (sequence : option pyint) : string :=
  match sequence with
  | Some s => get_tag_position line position s
  | None => get_tag_position line position sequence_default
  end.

(** A tag converter: called on the body, which it reads and leaves as it
    is, it returns a mapping from position key to new tag, or [None], or
    raises.  The tags of a mapping are new objects, none of them attached
    to a document yet. *)
Definition converter : Type := element -> result (option (dict element)).

(** [convert_blockquote], lines 112-123. *)
Definition convert_blockquote : converter := fun source_tag =>
  new_tags <-
    for_loop (find_all "blockquote" [] source_tag)
      (fun new_tags tag =>
         let new_tag := new_tag "blockquote" in
         new_tag <- set_string new_tag (string_ tag) ;;
         let new_tag :=
           set_attrs new_tag
             (filter (fun kv => negb (str_in (fst kv) ["class"]))
                (attrs new_tag)) in
         Ok (dict_update new_tags
               [(get_tag_position_call (sourceline tag) (sourcepos tag) None,
                 new_tag)]))
      [] ;;
  Ok (if (0 <? List.length new_tags)%nat then Some new_tags else None).

(** [TelegraphArticleBuilder._convert], lines 74-87. *)
Definition _convert (body : element) (tag_converters : list converter)
  : result element :=
  let new_body := BeautifulSoup [] in
  tags_with_position <-
    for_loop tag_converters
      (fun tags_with_position parser_func =>
         converted_tags <- parser_func body ;;
         Ok match converted_tags with
            | Some (kv :: more) => dict_or tags_with_position (kv :: more)
            | Some [] => tags_with_position
            | None => tags_with_position
            end)
      [] ;;
  let tags_positions := sort (dict_keys tags_with_position) in
  for_loop tags_positions
    (fun new_body position =>
       tag <- dict_getitem tags_with_position position ;;
       Ok (append new_body tag))
    new_body.

(** [soup.find(...).get("content", None)]: [find] may have returned [None],
    which has no [get]. *)
Definition call_get (found : option element) (key : string)
  (default : option attr_value) : Py.result (option attr_value) :=
  match found with
  | Some tag => Ok (get tag key default)
  | None => Raise AttributeError
  end.

(** [TelegraphArticleBuilder.build] from line 60 on, on the parsed document. *)
Definition build_soup (soup : element) (tag_converters : list converter)
  : Py.result TelegraphPage :=
  match find "div" [("class", "service_msg_error")] soup with
  | Some error_message => Raise (HTMLParseError (string_ error_message))
  | None =>
  match find "div" [("class", "article_layer_placeholder__text")] soup with
  | Some restricted_tag => Raise (HTMLParseError (string_ restricted_tag))
  | None =>
      title <-
        try_except
          (call_get (find "meta" [("property", "og:title")] soup) "content" None)
          cls_Exception
          (fun exc =>
             Raise (HTMLParseError
                      (Some ("Не найден тег заголовка статьи. Тег "
                             ++ str_tag (find "meta" [] soup))))) ;;
      match find "body" [] soup with
      | None => Raise (HTMLParseError (Some "Не найден тег тела статьи"))
      | Some body =>
          body <- _convert body tag_converters ;;
          Ok (TelegraphPage_init title body)
      end
  end
  end.

(** [TelegraphArticleBuilder.build], lines 51-72.  The parser
    [BeautifulSoup(source_html, 'html.parser')] is a parameter. *)
Definition build (html_parser : string -> element) (source_html : string)
  (tag_converters : list converter) : Py.result TelegraphPage :=
  let soup := html_parser source_html in
  build_soup soup tag_converters.

(** The tests of lines 90-101: the value of the asserted comparison. *)
Definition test_convert_blockquote (html_parser : string -> element)
  : Py.result bool :=
  result <- _convert (html_parser BlockquoteTag.source) [convert_blockquote] ;;
  Ok (element_eqb result (html_parser BlockquoteTag.result)).

Definition test_blockquote_with_child_strong
  (html_parser : string -> element) : Py.result bool :=
  result <- _convert (html_parser BlockquoteTagWithChildStrong.source)
              [convert_blockquote] ;;
  Ok (element_eqb result (html_parser BlockquoteTagWithChildStrong.result)).

(** ** Tags as objects, converters as callables with state

    [_convert] and [build] above take a converter for a function of the
    body and a mapping for a table of tag values, each value a tag of its
    own.  Beneath that, a tag is an object, a mapping holds references to
    objects, [append] moves the object it is given out of the place it has,
    and a converter is a callable that may keep state from one call to the
    next.  The same lines follow once more on that footing: tag objects
    carry an identity, the interpreter's state is what the converters keep
    together with the tag objects that exist outside the new document, and
    a mapping gives identities. *)

Inductive object : Type :=
| OString (s : string)
| OTag (id : nat) (name : string) (attrs : dict attr_value)
    (sourceline sourcepos : pyint) (contents : list object).

(** The tree of values an object stands for. *)
Fixpoint erase (o : object) : element :=
  match o with
  | OString s => NavigableString s
  | OTag _ n a l p cs => Tag n a l p (map erase cs)
  end.

Definition object_id (o : object) : option nat :=
  match o with
  | OString _ => None
  | OTag id _ _ _ _ _ => Some id
  end.

(** The identities of the tags in a tree. *)
Fixpoint object_ids (o : object) : list nat :=
  match o with
  | OString _ => []
  | OTag id _ _ _ _ cs => id :: flat_map object_ids cs
  end.

Definition find_first {A B : Type} (f : A -> option B)
  : list A -> option B :=
  fix go (l : list A) : option B :=
    match l with
    | [] => None
    | x :: rest =>
        match f x with
        | Some b => Some b
        | None => go rest
        end
    end.

(** The tag with identity [id] in a tree, in a forest. *)
Fixpoint find_in (id : nat) (o : object) : option object :=
  match o with
  | OString _ => None
  | OTag i _ _ _ _ cs =>
      if Nat.eqb i id then Some o else find_first (find_in id) cs
  end.

Definition find_object (id : nat) (forest : list object) : option object :=
  find_first (find_in id) forest.

(** [tag.extract()]: the forest without the tag of identity [id]. *)
Fixpoint remove_in (id : nat) (o : object) : list object :=
  match o with
  | OString _ => [o]
  | OTag i n a l p cs =>
      if Nat.eqb i id then []
      else [OTag i n a l p (flat_map (remove_in id) cs)]
  end.

Definition remove_object (id : nat) (forest : list object) : list object :=
  flat_map (remove_in id) forest.

(** [new_body.append(tag)], [tag] the object of identity [id]: the tag is
    taken out of the place it has, in the new document or among the other
    objects, and becomes the last child of the new document.  (Every
    reference names an object; an identity that names none leaves things
    as they are.) *)
Definition append_object (new_body heap : list object) (id : nat)
  : list object * list object :=
  match find_object id (new_body ++ heap)%list with
  | Some tag =>
      ((remove_object id new_body ++ [tag])%list, remove_object id heap)
  | None => (new_body, heap)
  end.

(** The state of the interpreter between two statements: what the
    converters keep ([S]), and the tag objects outside the new document. *)
Definition interp (S : Type) : Type := (S * list object)%type.

(** A converter as a callable: it reads the body, may change the state
    (make tags, count its calls), and returns a mapping from position key
    to tag object, or [None], or raises. *)
Definition stateful_converter (S : Type) : Type :=
  interp S -> element -> Py.result (option (dict nat)) * interp S.

(** [for x in items: b = body(b, x)] in a state, left at the first raise. *)
Fixpoint for_loop_st {A B St : Type} (items : list A)
  (body : B -> A -> St -> Py.result B * St) (b : B) (st : St)
  : Py.result B * St :=
  match items with
  | [] => (Ok b, st)
  | x :: rest =>
      match body b x st with
      | (Ok b', st') => for_loop_st rest body b' st'
      | (Raise e, st') => (Raise e, st')
      end
  end.

(** Lines 81-82 with a callable. *)
Definition merge_loop_body_st {S : Type} (body : element)
  (tags_with_position : dict nat) (parser_func : stateful_converter S)
  (st : interp S) : Py.result (dict nat) * interp S :=
  match parser_func st body with
  | (Ok converted_tags, st') =>
      (Ok match converted_tags with
          | Some (kv :: more) => dict_or tags_with_position (kv :: more)
          | Some [] => tags_with_position
          | None => tags_with_position
          end, st')
  | (Raise e, st') => (Raise e, st')
  end.

(** Line 86 with objects. *)
Definition append_loop_body (tags_with_position : dict nat)
  (new_body : list object) (position : string) (heap : list object)
  : Py.result (list object) * list object :=
  match dict_getitem tags_with_position position with
  | Ok tag =>
      let (new_body', heap') := append_object new_body heap tag in
      (Ok new_body', heap')
  | Raise e => (Raise e, heap)
  end.

(** [TelegraphArticleBuilder._convert], lines 74-87, on objects: the
    children of the new document, and the state left behind. *)
Definition _convert_objects {S : Type} (body : element)
  (tag_converters : list (stateful_converter S)) (st : interp S)
  : Py.result (list object) * interp S :=
  match for_loop_st tag_converters (merge_loop_body_st body) [] st with
  | (Raise e, st') => (Raise e, st')
  | (Ok tags_with_position, (s, heap)) =>
      let tags_positions := sort (dict_keys tags_with_position) in
      let (new_body, heap') :=
        for_loop_st tags_positions (append_loop_body tags_with_position)
          [] heap in
      (new_body, (s, heap'))
  end.


(** Converters as callables, for concrete runs. *)
Module Callables.




(** The blockquote converter as a callable that makes its tags anew at
    each call: the identities are taken above those in use. *)
Definition convert_two_quotes : stateful_converter unit :=
  fun st _ =>
    let next := S (list_max (flat_map object_ids (snd st))) in
    (Ok (Some [("00000020000501", next); ("00000050000101", S next)]),
     (fst st,
      (snd st ++ [OTag next "blockquote" [] PyNone PyNone [OString "first"];
                  OTag (S next) "blockquote" [] PyNone PyNone
                    [OString "second"]])%list)).


End Callables.

(** ** Vocabulary of the specification *)

(** The [width]-digit decimal numeral of [n], zeros in front, pushed on
    [acc]: the last digit is [n mod 10], the one before it
    [(n / 10) mod 10], and so on. *)
Fixpoint zero_padded_acc (width : nat) (n : Z) (acc : string) : string :=
  match width with
  | O => acc
  | S w => zero_padded_acc w (n / 10) (String (digit_char (n mod 10)) acc)
  end.

Definition zero_padded (width : nat) (n : Z) : string :=
  zero_padded_acc width n "".

(** Lexicographic combination of two comparisons. *)
Definition lex (c1 c2 : comparison) : comparison :=
  match c1 with
  | Eq => c2
  | _ => c1
  end.

(** Numeric order on (line, position, sequence) triples. *)
Definition triple_compare (a b : Z * Z * Z) : comparison :=
  let '(l1, p1, s1) := a in
  let '(l2, p2, s2) := b in
  lex (l1 ?= l2) (lex (p1 ?= p2) (s1 ?= s2)).

(** The limits of the three fields. *)
Definition in_range (line position sequence : Z) : Prop :=
  0 <= line < 10 ^ 7 /\ 0 <= position < 10 ^ 5 /\ 0 <= sequence < 10 ^ 2.

(** What a converter call gave, as the merge of [_convert] sees it: the
    value the mapping [r] has for key [k], if [r] is a mapping that has it. *)
Definition binding {V : Type} (k : string) (r : option (dict V)) : option V :=
  match r with
  | Some d => dict_get d k
  | None => None
  end.

(** The entry for key [k] of the last converter, in list order, whose
    mapping has the key. *)
Fixpoint last_binding {V : Type} (k : string) (rs : list (option (dict V)))
  : option V :=
  match rs with
  | [] => None
  | r :: rest =>
      match last_binding k rest with
      | Some v => Some v
      | None => binding k r
      end
  end.

(** The body of the first loop of [_convert], on the value a converter
    returned. *)
Definition merge_step {V : Type} (tags_with_position : dict V)
  (converted_tags : option (dict V)) : dict V :=
  match converted_tags with
  | Some (kv :: more) => dict_or tags_with_position (kv :: more)
  | Some [] => tags_with_position
  | None => tags_with_position
  end.

(** A converter call that returns: the value is a proper mapping (no key
    twice) or [None]. *)
Definition returns (body : element) (c : converter)
  (r : option (dict element)) : Prop :=
  c body = Ok r /\
  match r with
  | Some d => NoDup (dict_keys d)
  | None => True
  end.

(** Ascending order of keys, strict and not. *)
Definition key_lt (a b : string) : Prop := String.ltb a b = true.
Definition key_le (a b : string) : Prop := String.ltb b a = false.

(** The shape of a tag [convert_blockquote] makes: a blockquote outside any
    document, without attributes, around one text. *)
Definition plain_blockquote (t : element) : Prop :=
  exists s, t = Tag "blockquote" [] PyNone PyNone [NavigableString s].

(** The structural preconditions of [build], as the code tests them. *)
Definition is_some {A : Type} (o : option A) : bool :=
  match o with
  | Some _ => true
  | None => false
  end.

Definition has_error_marker (soup : element) : bool :=
  is_some (find "div" [("class", "service_msg_error")] soup).

Definition has_placeholder (soup : element) : bool :=
  is_some (find "div" [("class", "article_layer_placeholder__text")] soup).

Definition title_tag_absent (soup : element) : bool :=
  negb (is_some (find "meta" [("property", "og:title")] soup)).

Definition body_absent (soup : element) : bool :=
  negb (is_some (find "body" [] soup)).

Definition precondition_fails (soup : element) : bool :=
  has_error_marker soup || has_placeholder soup
  || title_tag_absent soup || body_absent soup.

(** A title tag that is there but malformed: it has no [content]. *)
Definition title_tag_malformed (soup : element) : bool :=
  match find "meta" [("property", "og:title")] soup with
  | Some tag => negb (is_some (get tag "content" None))
  | None => false
  end.

(** The preconditions in the words of the specification, which counts a
    malformed title tag among the failures. *)
Definition precondition_fails_as_stated (soup : element) : bool :=
  has_error_marker soup || has_placeholder soup
  || (title_tag_absent soup || title_tag_malformed soup) || body_absent soup.

(** [try: build(...) except PublishingError: return None]: a caller that
    treats every failure of the pipeline alike. *)
Definition build_catching_PublishingError (html_parser : string -> element)
  (source_html : string) (tag_converters : list converter)
  : Py.result (option TelegraphPage) :=
  try_except
    (page <- build html_parser source_html tag_converters ;; Ok (Some page))
    cls_PublishingError
    (fun exc => Ok None).

(** The body of the first loop of [_convert], lines 81-82. *)
Definition merge_loop_body (body : element)
  (tags_with_position : dict element) (parser_func : converter)
  : Py.result (dict element) :=
  converted_tags <- parser_func body ;;
  Ok match converted_tags with
     | Some (kv :: more) => dict_or tags_with_position (kv :: more)
     | Some [] => tags_with_position
     | None => tags_with_position
     end.



(** All the keys the converters gave, with repetitions. *)
Definition all_keys {V : Type} (rs : list (option (dict V))) : list string :=
  flat_map (fun r => match r with
                     | Some d => dict_keys d
                     | None => []
                     end) rs.

(** A converter call that adds nothing: [None] or the empty mapping. *)
Definition contributes_nothing (body : element) (c : converter) : Prop :=
  c body = Ok None \/ c body = Ok (Some []).

(** The entry one pass of the loop of [convert_blockquote] makes for a
    quote: its position key with the default sequence, and a new blockquote
    around the quote's [.string]; none when the quote has no [.string]. *)
Definition blockquote_entry (tag : element) : option (string * element) :=
  match string_ tag with
  | Some s =>
      Some (get_tag_position_call (sourceline tag) (sourcepos tag) None,
            Tag "blockquote" [] PyNone PyNone [NavigableString s])
  | None => None
  end.

(** The converter calls of one run of the first loop, all returning: the
    mappings they gave (proper ones, no key twice), and the state after the
    last. *)
Inductive returns_all {S : Type} (body : element)
  : list (stateful_converter S) -> interp S ->
    list (option (dict nat)) -> interp S -> Prop :=
| returns_nil st : returns_all body [] st [] st
| returns_cons c cs st r st1 rs st2 :
    c st body = (Ok r, st1) ->
    match r with
    | Some d => NoDup (dict_keys d)
    | None => True
    end ->
    returns_all body cs st1 rs st2 ->
    returns_all body (c :: cs) st (r :: rs) st2.

(** The tags of the merged mapping are tags of their own: the objects have
    one identity each, every tag the mapping gives is an object without
    parent, and no tag is given under two keys. *)
Definition fresh_tags (heap : list object) (rs : list (option (dict nat)))
  : Prop :=
  NoDup (flat_map object_ids heap) /\
  (forall k id, last_binding k rs = Some id ->
                exists o, In o heap /\ object_id o = Some id) /\
  (forall k1 k2 id, last_binding k1 rs = Some id ->
                    last_binding k2 rs = Some id -> k1 = k2).

(** The object without parent that has identity [id], and its value. *)
Definition root_object (heap : list object) (id : nat) : option object :=
  List.find (fun o => match object_id o with
                      | Some i => Nat.eqb i id
                      | None => false
                      end) heap.



(** A mapping with the values of its tags in place of their identities,
    as [_convert] on values takes it (an identity that names no object
    without parent stands for the empty document). *)
Definition erased_value (heap : list object) (id : nat) : element :=
  match root_object heap id with
  | Some o => erase o
  | None => BeautifulSoup []
  end.

Definition erased_mapping (heap : list object) (r : option (dict nat))
  : option (dict element) :=
  option_map (map (fun kv => (fst kv, erased_value heap (snd kv)))) r.

(** * Position encoder *)

Section PositionEncoder.

Lemma append_assoc (a b c : string) :
  ((a ++ b) ++ c)%string = (a ++ (b ++ c))%string.
Proof. induction a as [|x a IH]; simpl; [reflexivity | now rewrite IH]. Qed.

Lemma append_nil_r (a : string) : (a ++ "")%string = a.
Proof. induction a as [|x a IH]; simpl; [reflexivity | now rewrite IH]. Qed.

Lemma digit_char_compare a b :
  0 <= a < 10 -> 0 <= b < 10 ->
  Ascii.compare (digit_char a) (digit_char b) = (a ?= b).
Proof.
  intros Ha Hb. unfold Ascii.compare, digit_char.
  rewrite !N_ascii_embedding by lia.
  rewrite <- N2Z.inj_compare, !N2Z.inj_add, !Z2N.id by lia.
  apply Z.add_compare_mono_l.
Qed.

Lemma compare_div_mod a b :
  0 <= a -> 0 <= b ->
  (a ?= b) = lex (a / 10 ?= b / 10) (a mod 10 ?= b mod 10).
Proof.
  intros Ha Hb.
  pose proof (Z.div_mod a 10 ltac:(lia)) as Ea.
  pose proof (Z.div_mod b 10 ltac:(lia)) as Eb.
  pose proof (Z.mod_pos_bound a 10 ltac:(lia)).
  pose proof (Z.mod_pos_bound b 10 ltac:(lia)).
  unfold lex.
  destruct (Z.compare_spec (a / 10) (b / 10)) as [E|L|G].
  - destruct (Z.compare_spec (a mod 10) (b mod 10));
      [apply Z.compare_eq_iff | apply Z.compare_lt_iff | apply Z.compare_gt_iff];
      lia.
  - apply Z.compare_lt_iff; lia.
  - apply Z.compare_gt_iff; lia.
Qed.

Lemma lex_assoc c1 c2 c3 : lex (lex c1 c2) c3 = lex c1 (lex c2 c3).
Proof. destruct c1; reflexivity. Qed.

Lemma pow10_div n w :
  0 <= n < 10 ^ Z.of_nat (S w) -> 0 <= n / 10 < 10 ^ Z.of_nat w.
Proof.
  intros [H0 H1]. rewrite Nat2Z.inj_succ, Z.pow_succ_r in H1 by lia.
  split.
  - apply Z.div_pos; lia.
  - apply Z.div_lt_upper_bound; lia.
Qed.

(** Equal-width numerals compare as their numbers do, then as what follows
    them. *)
Lemma zero_padded_acc_compare w : forall a b s t,
  0 <= a < 10 ^ Z.of_nat w -> 0 <= b < 10 ^ Z.of_nat w ->
  String.compare (zero_padded_acc w a s) (zero_padded_acc w b t)
  = lex (a ?= b) (String.compare s t).
Proof.
  induction w as [|w IH]; intros a b s t Ha Hb.
  - simpl in *. assert (a = 0) by lia. assert (b = 0) by lia. subst.
    reflexivity.
  - cbn [zero_padded_acc].
    rewrite IH by (apply pow10_div; assumption).
    cbn [String.compare].
    rewrite digit_char_compare by (apply Z.mod_pos_bound; lia).
    rewrite (compare_div_mod a b) by lia.
    rewrite lex_assoc. f_equal.
    destruct (a mod 10 ?= b mod 10); reflexivity.
Qed.

Lemma zero_padded_acc_app w : forall n a b,
  (zero_padded_acc w n a ++ b)%string = zero_padded_acc w n (a ++ b).
Proof.
  induction w as [|w IH]; intros n a b; [reflexivity|].
  cbn [zero_padded_acc]. rewrite IH. reflexivity.
Qed.

Lemma zero_padded_acc_length w : forall n acc,
  String.length (zero_padded_acc w n acc) = (w + String.length acc)%nat.
Proof.
  induction w as [|w IH]; intros n acc; [reflexivity|].
  cbn [zero_padded_acc]. rewrite IH. simpl. lia.
Qed.

Lemma repeat_char_shift c j s :
  (repeat_char c j ++ String c s)%string = String c (repeat_char c j ++ s).
Proof.
  induction j as [|j IH]; simpl; [reflexivity|]. rewrite IH. reflexivity.
Qed.

Lemma zero_padded_acc_zero j : forall acc,
  zero_padded_acc j 0 acc = (repeat_char "0" j ++ acc)%string.
Proof.
  induction j as [|j IH]; intros acc; [reflexivity|].
  cbn [zero_padded_acc]. change (0 / 10) with 0. rewrite IH.
  change (digit_char (0 mod 10)) with "0"%char.
  rewrite repeat_char_shift. reflexivity.
Qed.

(** A numeral that fits [k] digits gains only zeros when written wider. *)
Lemma zero_padded_acc_pad j k : forall n acc,
  0 <= n < 10 ^ Z.of_nat k ->
  zero_padded_acc (j + k) n acc
  = (repeat_char "0" j ++ zero_padded_acc k n acc)%string.
Proof.
  induction k as [|k IH]; intros n acc Hn.
  - simpl in Hn. assert (n = 0) by lia. subst.
    rewrite Nat.add_0_r. apply zero_padded_acc_zero.
  - rewrite Nat.add_succ_r. cbn [zero_padded_acc].
    apply IH. apply pow10_div. assumption.
Qed.

(** [digits_acc] with enough fuel writes the numeral of [n] without
    leading zeros: some width [k] between 1 and any [w] that [n] fits. *)
Lemma digits_acc_zero_padded fuel : forall w n acc,
  0 <= n < 10 ^ Z.of_nat fuel -> 0 <= n < 10 ^ Z.of_nat w ->
  (1 <= fuel)%nat -> (1 <= w)%nat ->
  exists k, (1 <= k <= w)%nat /\ 0 <= n < 10 ^ Z.of_nat k /\
            digits_acc fuel n acc = zero_padded_acc k n acc.
Proof.
  induction fuel as [|fuel IH]; intros w n acc Hf Hw Hf1 Hw1; [lia|].
  cbn [digits_acc]. destruct (n <? 10) eqn:E.
  - apply Z.ltb_lt in E. exists 1%nat. repeat split; try lia.
  - apply Z.ltb_ge in E.
    destruct w as [|w]; [lia|].
    assert (1 <= fuel)%nat.
    { destruct fuel; [simpl in Hf; lia | lia]. }
    assert (1 <= w)%nat.
    { destruct w; [simpl in Hw; lia | lia]. }
    destruct (IH w (n / 10) (String (digit_char (n mod 10)) acc))
      as (k & Hk & Hn & Heq); try (apply pow10_div; assumption); try lia.
    exists (S k). split; [lia|]. split.
    + rewrite Nat2Z.inj_succ, Z.pow_succ_r by lia.
      pose proof (Z.div_mod n 10 ltac:(lia)).
      pose proof (Z.mod_pos_bound n 10 ltac:(lia)). lia.
    + exact Heq.
Qed.

Lemma str_nonneg_fuel n :
  0 <= n -> 0 <= n < 10 ^ Z.of_nat (S (Z.to_nat (Z.log2 n))).
Proof.
  intros Hn. split; [assumption|].
  rewrite Nat2Z.inj_succ, Z2Nat.id by apply Z.log2_nonneg.
  destruct (Z.eq_dec n 0) as [->|Hz]; [reflexivity|].
  pose proof (Z.log2_spec n ltac:(lia)) as [_ Hlt].
  pose proof (Z.log2_nonneg n).
  assert (2 ^ Z.succ (Z.log2 n) <= 10 ^ Z.succ (Z.log2 n))
    by (apply Z.pow_le_mono_l; lia).
  lia.
Qed.

Lemma digits_acc_more_fuel fuel : forall extra n acc,
  0 <= n < 10 ^ Z.of_nat fuel -> (1 <= fuel)%nat ->
  digits_acc (fuel + extra) n acc = digits_acc fuel n acc.
Proof.
  induction fuel as [|fuel IH]; intros extra n acc Hn Hf; [lia|].
  cbn [Nat.add digits_acc]. destruct (n <? 10) eqn:E; [reflexivity|].
  apply Z.ltb_ge in E. apply IH; [apply pow10_div; exact Hn|].
  destruct fuel; [simpl in Hn; lia | lia].
Qed.

(** The fuel of [str_nonneg] is never used up. *)
Lemma str_nonneg_fuel_lasts n extra :
  0 <= n ->
  digits_acc (S (Z.to_nat (Z.log2 n)) + extra) n "" = str_nonneg n.
Proof.
  intros Hn. unfold str_nonneg.
  apply digits_acc_more_fuel; [apply str_nonneg_fuel, Hn | lia].
Qed.

Example str_int_examples :
  str_int 0 = "0" /\ str_int 7 = "7" /\ str_int 120 = "120" /\
  str_int 9999999 = "9999999" /\ str_int (-35) = "-35".
Proof. repeat split. Qed.

Example get_tag_position_examples :
  get_tag_position (PyInt 2) (PyInt 5) (PyInt 1) = "00000020000501" /\
  get_tag_position (PyInt 5) (PyInt 1) PyNone = "00000050000100" /\
  get_tag_position (PyInt 12345678) (PyInt 0) (PyInt 1) = "123456780000001" /\
  get_tag_position PyNone PyNone (PyInt 1) = "000None0None01".
Proof. repeat split. Qed.

(** [str(n).rjust(w, "0")] is the [w]-digit numeral of [n] when [n] fits. *)
Lemma rjust_str_zero_padded w n acc :
  (1 <= w)%nat -> 0 <= n < 10 ^ Z.of_nat w ->
  (rjust (str (PyInt n)) w "0" ++ acc)%string = zero_padded_acc w n acc.
Proof.
  intros Hw Hn. unfold str, str_int.
  replace (n <? 0) with false by (symmetry; apply Z.ltb_ge; lia).
  unfold str_nonneg.
  destruct (digits_acc_zero_padded (S (Z.to_nat (Z.log2 n))) w n ""
              (str_nonneg_fuel n ltac:(lia)) Hn ltac:(lia) Hw)
    as (k & Hk & Hnk & ->).
  unfold rjust. rewrite zero_padded_acc_length. simpl String.length.
  rewrite Nat.add_0_r.
  rewrite append_assoc, zero_padded_acc_app. cbn [append].
  rewrite <- zero_padded_acc_pad by assumption.
  f_equal. lia.
Qed.

Lemma get_tag_position_zero_padded l p s :
  in_range l p s ->
  get_tag_position (PyInt l) (PyInt p) (PyInt s)
  = zero_padded_acc 7 l (zero_padded_acc 5 p (zero_padded_acc 2 s "")).
Proof.
  intros (Hl & Hp & Hs). unfold get_tag_position. cbn [join].
  rewrite (rjust_str_zero_padded 7) by (try lia; exact Hl).
  rewrite (rjust_str_zero_padded 5) by (try lia; exact Hp).
  rewrite <- (rjust_str_zero_padded 2 s "") by (try lia; exact Hs).
  rewrite append_nil_r. reflexivity.
Qed.

Lemma append_inv_head (a x y : string) :
  (a ++ x)%string = (a ++ y)%string -> x = y.
Proof.
  induction a as [|c a IH]; simpl; intros H; [assumption|].
  injection H as H. auto.
Qed.

Lemma get_tag_position_compare l1 p1 s1 l2 p2 s2 :
  in_range l1 p1 s1 -> in_range l2 p2 s2 ->
  String.compare (get_tag_position (PyInt l1) (PyInt p1) (PyInt s1))
                 (get_tag_position (PyInt l2) (PyInt p2) (PyInt s2))
  = triple_compare (l1, p1, s1) (l2, p2, s2).
Proof.
  intros R1 R2.
  rewrite (get_tag_position_zero_padded _ _ _ R1).
  rewrite (get_tag_position_zero_padded _ _ _ R2).
  destruct R1 as (Hl1 & Hp1 & Hs1), R2 as (Hl2 & Hp2 & Hs2).
  rewrite (zero_padded_acc_compare 7) by assumption.
  rewrite (zero_padded_acc_compare 5) by assumption.
  rewrite (zero_padded_acc_compare 2) by assumption.
  unfold triple_compare. simpl String.compare.
  destruct (s1 ?= s2); reflexivity.
Qed.

(** C2.  For line < 10^7, position < 10^5 and sequence < 10^2, none of them
    negative, each component of the key is written as its zero-padded
    decimal numeral of 7, 5 and 2 digits, the key is their concatenation
    (14 characters), and two such keys compare as strings the way their
    (line, position, sequence) triples compare as numbers. *)
Theorem get_tag_position_order l1 p1 s1 l2 p2 s2 :
  in_range l1 p1 s1 -> in_range l2 p2 s2 ->
  let k1 := get_tag_position (PyInt l1) (PyInt p1) (PyInt s1) in
  let k2 := get_tag_position (PyInt l2) (PyInt p2) (PyInt s2) in
  rjust (str (PyInt l1)) 7 "0" = zero_padded 7 l1 /\
  rjust (str (PyInt p1)) 5 "0" = zero_padded 5 p1 /\
  rjust (str (PyInt s1)) 2 "0" = zero_padded 2 s1 /\
  k1 = (zero_padded 7 l1 ++ zero_padded 5 p1 ++ zero_padded 2 s1)%string /\
  String.length k1 = 14%nat /\
  String.compare k1 k2 = triple_compare (l1, p1, s1) (l2, p2, s2).
Proof.
  intros R1 R2 k1 k2.
  pose proof R1 as (Hl1 & Hp1 & Hs1). pose proof R2 as (Hl2 & Hp2 & Hs2).
  assert (F : forall w n, (1 <= w)%nat -> 0 <= n < 10 ^ Z.of_nat w ->
                          rjust (str (PyInt n)) w "0" = zero_padded w n).
  { intros w n Hw Hn. rewrite <- (append_nil_r (rjust _ _ _)).
    apply rjust_str_zero_padded; assumption. }
  assert (K1 : k1 = zero_padded_acc 7 l1
                      (zero_padded_acc 5 p1 (zero_padded_acc 2 s1 "")))
    by (apply get_tag_position_zero_padded; exact R1).
  repeat split.
  - apply F; [lia | exact Hl1].
  - apply F; [lia | exact Hp1].
  - apply F; [lia | exact Hs1].
  - rewrite K1. unfold zero_padded.
    rewrite !zero_padded_acc_app. reflexivity.
  - rewrite K1, !zero_padded_acc_length. reflexivity.
  - apply get_tag_position_compare; assumption.
Qed.

Lemma get_tag_position_order_witness :
  in_range 2 5 1 /\ in_range 5 1 1 /\
  String.compare (get_tag_position (PyInt 2) (PyInt 5) (PyInt 1))
                 (get_tag_position (PyInt 5) (PyInt 1) (PyInt 1))
  = triple_compare (2, 5, 1) (5, 1, 1).
Proof.
  assert (R1 : in_range 2 5 1) by (unfold in_range; lia).
  assert (R2 : in_range 5 1 1) by (unfold in_range; lia).
  split; [exact R1|]. split; [exact R2|].
  apply (get_tag_position_order 2 5 1 5 1 1 R1 R2).
Defined.

(** C7.  A call that leaves [sequence] out uses 1, a call that passes
    [None] uses 0, and the two keys differ, whatever line and position
    are. *)
Theorem get_tag_position_sequence_asymmetry (line position : pyint) :
  get_tag_position_call line position None
  = get_tag_position line position (PyInt 1) /\
  get_tag_position_call line position (Some PyNone)
  = get_tag_position line position (PyInt 0) /\
  get_tag_position_call line position None
  <> get_tag_position_call line position (Some PyNone).
Proof.
  repeat split.
  unfold get_tag_position_call, sequence_default, get_tag_position.
  cbn [join]. intros H.
  apply append_inv_head in H. apply append_inv_head in H.
  vm_compute in H. discriminate H.
Qed.

End PositionEncoder.

(** * Strings in order, [list.sort] *)

Section KeyOrder.

Lemma ascii_compare_refl (a : ascii) : Ascii.compare a a = Eq.
Proof. unfold Ascii.compare. apply N.compare_refl. Qed.

Lemma ascii_compare_lt_trans (a b c : ascii) :
  Ascii.compare a b = Lt -> Ascii.compare b c = Lt -> Ascii.compare a c = Lt.
Proof.
  unfold Ascii.compare. rewrite !N.compare_lt_iff. apply N.lt_trans.
Qed.

Lemma string_compare_lt_trans (a : string) : forall b c,
  String.compare a b = Lt -> String.compare b c = Lt ->
  String.compare a c = Lt.
Proof.
  induction a as [|x a IH]; intros [|y b] [|z c]; simpl;
    try discriminate; try reflexivity.
  destruct (Ascii.compare x y) eqn:Exy; try discriminate;
    destruct (Ascii.compare y z) eqn:Eyz; try discriminate; intros Hab Hbc.
  - apply Ascii.compare_eq_iff in Exy, Eyz. subst.
    rewrite ascii_compare_refl. eauto.
  - apply Ascii.compare_eq_iff in Exy. subst. rewrite Eyz. reflexivity.
  - apply Ascii.compare_eq_iff in Eyz. subst. rewrite Exy. reflexivity.
  - rewrite (ascii_compare_lt_trans _ _ _ Exy Eyz). reflexivity.
Qed.

Lemma string_compare_refl (a : string) : String.compare a a = Eq.
Proof.
  induction a as [|x a IH]; simpl; [reflexivity|].
  rewrite ascii_compare_refl. exact IH.
Qed.

Lemma key_lt_trans a b c : key_lt a b -> key_lt b c -> key_lt a c.
Proof.
  unfold key_lt, String.ltb. intros Hab Hbc.
  destruct (String.compare a b) eqn:Eab; try discriminate.
  destruct (String.compare b c) eqn:Ebc; try discriminate.
  rewrite (string_compare_lt_trans _ _ _ Eab Ebc). reflexivity.
Qed.

Lemma key_lt_irrefl a : ~ key_lt a a.
Proof.
  unfold key_lt, String.ltb. rewrite string_compare_refl. discriminate.
Qed.

Lemma key_lt_le a b : key_lt a b -> key_le a b.
Proof.
  unfold key_lt, key_le, String.ltb. rewrite (String.compare_antisym b a).
  destruct (String.compare a b); simpl; congruence.
Qed.

Lemma key_le_neq_lt a b : key_le a b -> a <> b -> key_lt a b.
Proof.
  unfold key_lt, key_le, String.ltb. intros Hle Hne.
  rewrite (String.compare_antisym b a) in Hle.
  destruct (String.compare a b) eqn:E; simpl in Hle; try congruence.
  apply String.compare_eq_iff in E. contradiction.
Qed.

Lemma key_lt_le_trans a b c : key_lt a b -> key_le b c -> key_le a c.
Proof.
  intros Hab Hbc. unfold key_le.
  destruct (String.ltb c a) eqn:E; [|reflexivity].
  assert (key_lt c b) by (eapply key_lt_trans; eassumption).
  unfold key_le, key_lt in *. congruence.
Qed.

Lemma insert_sorted_perm x l : Permutation (insert_sorted x l) (x :: l).
Proof.
  induction l as [|y l IH]; simpl; [reflexivity|].
  destruct (String.ltb x y); [reflexivity|].
  rewrite IH. apply perm_swap.
Qed.

Lemma insert_sorted_sorted x l :
  StronglySorted key_le l -> StronglySorted key_le (insert_sorted x l).
Proof.
  induction 1 as [|y l Hs IH Hy]; simpl.
  - repeat constructor.
  - destruct (String.ltb x y) eqn:E.
    + constructor; [constructor; assumption|].
      constructor; [apply key_lt_le; exact E|].
      eapply Forall_impl; [|exact Hy].
      intros z Hz. eapply key_lt_le_trans; [exact E | exact Hz].
    + constructor; [exact IH|].
      eapply Permutation_Forall;
        [symmetry; apply insert_sorted_perm|].
      constructor; [exact E | exact Hy].
Qed.

Lemma fold_insert_perm l : forall acc,
  Permutation (fold_left (fun acc x => insert_sorted x acc) l acc) (acc ++ l).
Proof.
  induction l as [|x l IH]; intros acc; simpl.
  - rewrite app_nil_r. reflexivity.
  - rewrite IH, insert_sorted_perm. apply Permutation_middle.
Qed.

Lemma fold_insert_sorted l : forall acc,
  StronglySorted key_le acc ->
  StronglySorted key_le (fold_left (fun acc x => insert_sorted x acc) l acc).
Proof.
  induction l as [|x l IH]; intros acc Hacc; simpl; [assumption|].
  apply IH, insert_sorted_sorted, Hacc.
Qed.

Lemma sort_perm l : Permutation (sort l) l.
Proof. unfold sort. apply (fold_insert_perm l []). Qed.

Lemma sort_sorted l : StronglySorted key_le (sort l).
Proof. unfold sort. apply fold_insert_sorted. constructor. Qed.

Lemma sorted_nodup_strict l :
  StronglySorted key_le l -> NoDup l -> StronglySorted key_lt l.
Proof.
  induction 1 as [|x l Hs IH Hx]; intros Hnd; constructor.
  - apply IH. inversion Hnd; assumption.
  - inversion Hnd as [|? ? Hnin Hnd']; subst.
    rewrite Forall_forall in *. intros y Hy.
    apply key_le_neq_lt; [apply Hx, Hy|].
    intros ->. contradiction.
Qed.


End KeyOrder.

(** * Dictionaries *)

Section Dict.

Context {V : Type}.

Lemma dict_get_set (d : dict V) k v k' :
  dict_get (dict_set d k v) k'
  = if String.eqb k' k then Some v else dict_get d k'.
Proof.
  induction d as [|[k0 v0] d IH]; simpl.
  - reflexivity.
  - destruct (String.eqb_spec k k0) as [->|Hk]; simpl.
    + destruct (String.eqb k' k0); reflexivity.
    + rewrite IH. destruct (String.eqb_spec k' k0) as [->|Hk'].
      * destruct (String.eqb_spec k0 k); congruence.
      * reflexivity.
Qed.

Lemma dict_get_none (d : dict V) k :
  ~ In k (dict_keys d) -> dict_get d k = None.
Proof.
  induction d as [|[k0 v0] d IH]; simpl; intros Hn; [reflexivity|].
  destruct (String.eqb_spec k k0) as [->|Hk]; [tauto|].
  apply IH. tauto.
Qed.

Lemma dict_get_some_iff (d : dict V) k :
  In k (dict_keys d) <-> dict_get d k <> None.
Proof.
  induction d as [|[k0 v0] d IH]; simpl.
  - split; [tauto | congruence].
  - destruct (String.eqb_spec k k0) as [->|Hk].
    + split; [discriminate | auto].
    + rewrite <- IH. split; [intros [E|H]; congruence | auto].
Qed.

Lemma dict_keys_set (d : dict V) k v :
  dict_keys (dict_set d k v)
  = if in_dec string_dec k (dict_keys d) then dict_keys d
    else (dict_keys d ++ [k])%list.
Proof.
  induction d as [|[k0 v0] d IH]; simpl; [reflexivity|].
  destruct (String.eqb_spec k k0) as [->|Hk]; simpl.
  - destruct (string_dec k0 k0); [reflexivity | congruence].
  - rewrite IH. destruct (string_dec k0 k); [congruence|].
    destruct (in_dec string_dec k (dict_keys d)); reflexivity.
Qed.

Lemma dict_set_nodup (d : dict V) k v :
  NoDup (dict_keys d) -> NoDup (dict_keys (dict_set d k v)).
Proof.
  intros Hd. rewrite dict_keys_set.
  destruct (in_dec string_dec k (dict_keys d)) as [Hin|Hnin]; [assumption|].
  apply NoDup_rev in Hd. rewrite <- (rev_involutive (_ ++ _)).
  apply NoDup_rev. rewrite rev_app_distr. simpl.
  constructor; [rewrite <- in_rev; assumption | assumption].
Qed.

Lemma dict_update_nodup (other : dict V) : forall d,
  NoDup (dict_keys d) -> NoDup (dict_keys (dict_update d other)).
Proof.
  unfold dict_update.
  induction other as [|[k v] other IH]; intros d Hd; simpl; [assumption|].
  apply IH, dict_set_nodup, Hd.
Qed.

(** After [d.update(other)] a key has the value [other] gives it, or else
    the one it had. *)
Lemma dict_get_update (other : dict V) : forall d k,
  NoDup (dict_keys other) ->
  dict_get (dict_update d other) k
  = match dict_get other k with
    | Some v => Some v
    | None => dict_get d k
    end.
Proof.
  unfold dict_update.
  induction other as [|[k0 v0] other IH]; intros d k Hnd; simpl;
    [reflexivity|].
  inversion Hnd as [|? ? Hnin Hnd']; subst.
  rewrite IH by assumption. rewrite dict_get_set.
  destruct (String.eqb_spec k k0) as [->|Hk]; [|reflexivity].
  rewrite (dict_get_none other k0 Hnin). reflexivity.
Qed.

Lemma dict_get_Forall (P : V -> Prop) (d : dict V) k v :
  Forall (fun kv => P (snd kv)) d -> dict_get d k = Some v -> P v.
Proof.
  induction 1 as [|[k0 v0] d H0 _ IH]; simpl; [discriminate|].
  destruct (String.eqb k k0); [|exact IH].
  intros E. injection E as <-. exact H0.
Qed.

End Dict.

(** * The merge and the output of [_convert] *)

Section Convert.

Local Open Scope list_scope.

Variable body : element.

Lemma merge_step_get {V : Type} (d : dict V) r k :
  match r with Some o => NoDup (dict_keys o) | None => True end ->
  dict_get (merge_step d r) k
  = match binding k r with
    | Some v => Some v
    | None => dict_get d k
    end.
Proof.
  destruct r as [[|kv more]|]; intros Hr; try reflexivity.
  unfold merge_step, dict_or, binding. apply dict_get_update, Hr.
Qed.

Lemma merge_step_nodup {V : Type} (d : dict V) r :
  NoDup (dict_keys d) -> NoDup (dict_keys (merge_step d r)).
Proof.
  destruct r as [[|kv more]|]; intros Hd; try assumption.
  apply dict_update_nodup, Hd.
Qed.

Lemma merge_loop cs : forall rs acc,
  Forall2 (returns body) cs rs ->
  for_loop cs
    (fun tags_with_position parser_func =>
       converted_tags <- parser_func body ;;
       Ok match converted_tags with
          | Some (kv :: more) => dict_or tags_with_position (kv :: more)
          | Some [] => tags_with_position
          | None => tags_with_position
          end)
    acc
  = Ok (fold_left merge_step rs acc).
Proof.
  induction cs as [|c cs IH]; intros rs acc H; inversion H as [|? r ? rs' [Hc _] Hrest];
    subst; [reflexivity|].
  cbn [for_loop fold_left]. rewrite Hc. cbn [bind].
  apply IH, Hrest.
Qed.

Lemma merged_get {V : Type} (rs : list (option (dict V))) : forall acc k,
  Forall (fun r => match r with
                   | Some o => NoDup (dict_keys o)
                   | None => True
                   end) rs ->
  dict_get (fold_left merge_step rs acc) k
  = match last_binding k rs with
    | Some v => Some v
    | None => dict_get acc k
    end.
Proof.
  induction rs as [|r rs IH]; intros acc k Hwf; [reflexivity|].
  inversion Hwf as [|? ? Hr Hrs]; subst.
  cbn [fold_left last_binding]. rewrite IH by assumption.
  destruct (last_binding k rs); [reflexivity|].
  apply merge_step_get, Hr.
Qed.

Lemma merged_nodup {V : Type} (rs : list (option (dict V))) : forall acc,
  NoDup (dict_keys acc) -> NoDup (dict_keys (fold_left merge_step rs acc)).
Proof.
  induction rs as [|r rs IH]; intros acc Hacc; [assumption|].
  cbn [fold_left]. apply IH, merge_step_nodup, Hacc.
Qed.

(** The second loop appends, key by key, the tag the mapping has. *)
Lemma append_loop (d : dict element) ks : forall acc,
  (forall k, In k ks -> dict_get d k <> None) ->
  exists vs,
    Forall2 (fun k v => dict_get d k = Some v) ks vs /\
    for_loop ks
      (fun new_body position =>
         tag <- dict_getitem d position ;; Ok (append new_body tag))
      (BeautifulSoup acc)
    = Ok (BeautifulSoup (acc ++ vs)).
Proof.
  induction ks as [|k ks IH]; intros acc Hin.
  - exists []. split; [constructor | simpl; now rewrite app_nil_r].
  - destruct (dict_get d k) as [v|] eqn:Ek;
      [|exfalso; apply (Hin k); [left; reflexivity | exact Ek]].
    destruct (IH (acc ++ [v])) as (vs & Hvs & Hloop);
      [intros k' Hk'; apply Hin; right; exact Hk'|].
    exists (v :: vs). split; [constructor; assumption|].
    cbn [for_loop]. unfold dict_getitem at 1. rewrite Ek. cbn [bind append].
    rewrite Hloop, <- app_assoc. reflexivity.
Qed.

Lemma returns_wf cs rs :
  Forall2 (returns body) cs rs ->
  Forall (fun r => match r with
                   | Some o => NoDup (dict_keys o)
                   | None => True
                   end) rs.
Proof.
  induction 1 as [|c r cs rs [_ Hr] _ IH]; constructor; assumption.
Qed.

(** What [_convert] returns when every converter returns: the tags of the
    merged mapping, by ascending key, each key once. *)
Lemma convert_returns cs rs :
  Forall2 (returns body) cs rs ->
  exists ks vs,
    _convert body cs = Ok (BeautifulSoup vs) /\
    StronglySorted key_lt ks /\
    (forall k, In k ks <-> last_binding k rs <> None) /\
    Forall2 (fun k v => last_binding k rs = Some v) ks vs.
Proof.
  intros H. pose proof (returns_wf _ _ H) as Hwf.
  set (d := fold_left merge_step rs []).
  assert (Hget : forall k, dict_get d k = last_binding k rs).
  { intros k. unfold d. rewrite merged_get by assumption.
    destruct (last_binding k rs); reflexivity. }
  assert (Hnd : NoDup (dict_keys d)) by (apply merged_nodup; constructor).
  pose proof (sort_perm (dict_keys d)) as Hperm.
  destruct (append_loop d (sort (dict_keys d)) []) as (vs & Hvs & Hloop).
  { intros k Hk. apply dict_get_some_iff.
    eapply Permutation_in; [exact Hperm | exact Hk]. }
  exists (sort (dict_keys d)), vs. repeat split.
  - unfold _convert. rewrite (merge_loop cs rs [] H). cbn [bind].
    exact Hloop.
  - apply sorted_nodup_strict; [apply sort_sorted|].
    eapply Permutation_NoDup; [symmetry; exact Hperm | exact Hnd].
  - intros Hk. rewrite <- Hget. apply dict_get_some_iff.
    eapply Permutation_in; [exact Hperm | exact Hk].
  - intros Hk. rewrite <- Hget in Hk. apply dict_get_some_iff in Hk.
    eapply Permutation_in; [symmetry; exact Hperm | exact Hk].
  - eapply Forall2_impl; [|exact Hvs].
    intros k v Hkv. rewrite <- Hget. exact Hkv.
Qed.

End Convert.

Section OrderPreservation.

Local Open Scope list_scope.

Lemma Forall2_nth_error {A B : Type} (R : A -> B -> Prop) l : forall m i a,
  Forall2 R l m -> nth_error l i = Some a ->
  exists b, nth_error m i = Some b /\ R a b.
Proof.
  induction l as [|x l IH]; intros m i a H Hi; [destruct i; discriminate|].
  inversion H as [|? y ? m' Hxy Hrest]; subst.
  destruct i as [|i]; simpl in *.
  - injection Hi as <-. exists y. split; [reflexivity | exact Hxy].
  - eapply IH; eassumption.
Qed.

End OrderPreservation.

(** * The builder *)

Section Builder.

Variable html_parser : string -> element.

(** [build] past its four checks. *)
Lemma build_soup_checked soup cs tag body :
  find "div" [("class", "service_msg_error")] soup = None ->
  find "div" [("class", "article_layer_placeholder__text")] soup = None ->
  find "meta" [("property", "og:title")] soup = Some tag ->
  find "body" [] soup = Some body ->
  build_soup soup cs
  = (out <- _convert body cs ;;
     Ok (TelegraphPage_init (get tag "content" None) out)).
Proof.
  intros H1 H2 H3 H4. unfold build_soup.
  rewrite H1, H2, H3, H4. reflexivity.
Qed.

Lemma build_soup_fails soup cs :
  precondition_fails soup = true ->
  exists m, build_soup soup cs = Raise (HTMLParseError m).
Proof.
  unfold precondition_fails, has_error_marker, has_placeholder,
    title_tag_absent, body_absent, build_soup.
  destruct (find "div" [("class", "service_msg_error")] soup);
    [intros _; eexists; reflexivity|].
  destruct (find "div" [("class", "article_layer_placeholder__text")] soup);
    [intros _; eexists; reflexivity|].
  destruct (find "meta" [("property", "og:title")] soup);
    [|intros _; eexists; reflexivity].
  destruct (find "body" [] soup); [discriminate|].
  intros _. eexists. reflexivity.
Qed.

Lemma build_soup_passes soup cs rs :
  precondition_fails soup = false ->
  (forall body, find "body" [] soup = Some body ->
                Forall2 (returns body) cs rs) ->
  exists tag out,
    find "meta" [("property", "og:title")] soup = Some tag /\
    build_soup soup cs
    = Ok (mkTelegraphPage (get tag "content" None) out None None).
Proof.
  unfold precondition_fails, has_error_marker, has_placeholder,
    title_tag_absent, body_absent.
  destruct (find "div" [("class", "service_msg_error")] soup) eqn:E1;
    [discriminate|].
  destruct (find "div" [("class", "article_layer_placeholder__text")] soup)
    eqn:E2; [discriminate|].
  destruct (find "meta" [("property", "og:title")] soup) as [tag|] eqn:E3;
    [|discriminate].
  destruct (find "body" [] soup) as [body|] eqn:E4; [|discriminate].
  intros _ Hcs.
  destruct (convert_returns body cs rs (Hcs body eq_refl))
    as (ks & vs & Hc & _).
  exists tag, (BeautifulSoup vs). split; [reflexivity|].
  rewrite (build_soup_checked soup cs tag body E1 E2 E3 E4), Hc.
  reflexivity.
Qed.

(** C5, amended.  With converters that return, [build] raises
    [HTMLParseError] exactly when the document has the service-error
    marker, has the restricted-content placeholder, has no [og:title] meta
    tag, or has no body tag; otherwise it returns a page whose [url] and
    [path] are unset and whose title is the [content] of the title tag,
    [None] when the tag has no [content]: a title tag without [content] is
    not among the failures. *)
Theorem build_raises_exactly source_html cs rs :
  let soup := html_parser source_html in
  (forall body, find "body" [] soup = Some body ->
                Forall2 (returns body) cs rs) ->
  ((exists m, build html_parser source_html cs = Raise (HTMLParseError m))
   <-> precondition_fails soup = true) /\
  (precondition_fails soup = false ->
   exists tag page,
     find "meta" [("property", "og:title")] soup = Some tag /\
     build html_parser source_html cs = Ok page /\
     title page = get tag "content" None /\
     (title_tag_malformed soup = true -> title page = None) /\
     url page = None /\ path page = None).
Proof.
  intros soup Hcs. unfold build. fold soup.
  destruct (precondition_fails soup) eqn:E.
  - split; [|discriminate].
    split; [reflexivity | intros _; apply build_soup_fails, E].
  - destruct (build_soup_passes soup cs rs E Hcs) as (tag & out & Ht & Hb).
    split.
    + split; [|discriminate]. intros [m Hm]. congruence.
    + intros _. exists tag. eexists. split; [exact Ht|].
      split; [exact Hb|]. cbn [title url path].
      repeat split. unfold title_tag_malformed. rewrite Ht.
      destruct (get tag "content" None); [discriminate | reflexivity].
Qed.


End Builder.

(** * The builder on concrete documents *)

Section BuilderExamples.

Lemma quotes_body_returns col :
  Forall2 (returns (Examples.quotes_body col)) [convert_blockquote]
    [Some Examples.two_quotes_converted].
Proof.
  constructor; [|constructor]. split; [reflexivity|].
  repeat constructor; simpl; intuition discriminate.
Qed.

Lemma two_quotes_returns body :
  find "body" [] (Examples.html_parser Examples.two_quotes_html) = Some body ->
  Forall2 (returns body) [convert_blockquote]
    [Some Examples.two_quotes_converted].
Proof.
  intros Hb. vm_compute in Hb. injection Hb as <-.
  apply (quotes_body_returns 42).
Qed.

Lemma build_raises_exactly_witness :
  exists page,
    build Examples.html_parser Examples.two_quotes_html [convert_blockquote]
    = Ok page /\
    url page = None /\ path page = None.
Proof.
  destruct (build_raises_exactly Examples.html_parser
              Examples.two_quotes_html
              [convert_blockquote] [Some Examples.two_quotes_converted]
              two_quotes_returns) as [_ H].
  destruct (H eq_refl) as (tag & page & _ & Hb & _ & _ & Hu & Hp).
  exists page. auto.
Defined.

(** C5 as stated fails: the title tag of this document is malformed (it has
    no [content]), which the claim lists among the failures, and [build]
    returns a page. *)
Lemma build_malformed_title_counterexample :
  let soup := Examples.html_parser Examples.title_without_content_html in
  title_tag_malformed soup = true /\
  precondition_fails_as_stated soup = true /\
  build Examples.html_parser Examples.title_without_content_html
    [convert_blockquote]
  = Ok (mkTelegraphPage None
          (BeautifulSoup
             [Tag "blockquote" [] PyNone PyNone [NavigableString "first"];
              Tag "blockquote" [] PyNone PyNone [NavigableString "second"]])
          None None).
Proof. repeat split; vm_compute; reflexivity. Qed.


(** An exception of a converter leaves [build] as it is, and a
    [ConvertTagError] is caught as a [PublishingError]. *)
Lemma build_converter_raises :
  build Examples.html_parser Examples.two_quotes_html
    [Examples.convert_failing]
  = Raise (ConvertTagError "blockquote" 2) /\
  build_catching_PublishingError Examples.html_parser
    Examples.two_quotes_html [Examples.convert_failing]
  = Ok None.
Proof. split; vm_compute; reflexivity. Qed.

(** C6 on the code: [HTMLParseError] derives from [Exception], not from
    [PublishingError] as [ConvertTagError] does, and a caller that catches
    [PublishingError] around [build] is passed by the [HTMLParseError] of a
    document without body. *)
Theorem HTMLParseError_escapes_PublishingError :
  issubclass cls_ConvertTagError cls_PublishingError = true /\
  issubclass cls_HTMLParseError cls_PublishingError = false /\
  mro cls_HTMLParseError
  = [cls_HTMLParseError; cls_Exception; cls_BaseException; cls_object] /\
  build_catching_PublishingError Examples.html_parser Examples.no_body_html
    [convert_blockquote]
  = Raise (HTMLParseError (Some "Не найден тег тела статьи")).
Proof. repeat split; vm_compute; reflexivity. Qed.

End BuilderExamples.

(** * The blockquote converter *)

Section Blockquote.

(** C3 on the code: the filter of lines 118-119 runs over the attributes of
    the new tag, which has none, so nothing of the source tag's attributes
    is kept: [id] is lost along with [class].  The input of the claim,
    which has no attribute but [class], comes out as it says, and the test
    of lines 90-94 passes. *)
Theorem convert_blockquote_keeps_no_attribute :
  convert_blockquote (Examples.html_parser Examples.quote_with_id_html)
  = Ok (Some [("00000010000001",
               Tag "blockquote" [] PyNone PyNone [NavigableString "text"])]) /\
  (out <- _convert (Examples.html_parser Examples.quote_with_id_html)
            [convert_blockquote] ;;
   Ok (decode out))
  = Ok "<blockquote>text</blockquote>" /\
  (out <- _convert (Examples.html_parser BlockquoteTag.source)
            [convert_blockquote] ;;
   Ok (decode out))
  = Ok "<blockquote>Будут ли разные виды феодализма?</blockquote>" /\
  test_convert_blockquote Examples.html_parser = Ok true.
Proof. repeat split; vm_compute; reflexivity. Qed.

(** C4 on the code: a quote with several children has no [.string], the
    assignment of line 116 raises [TypeError], and the test of lines
    97-101, which expects the nested result, raises with it. *)
Theorem convert_blockquote_nested_raises :
  map string_
    (find_all "blockquote" []
       (Examples.html_parser BlockquoteTagWithChildStrong.source))
  = [None] /\
  convert_blockquote (Examples.html_parser BlockquoteTagWithChildStrong.source)
  = Raise TypeError /\
  _convert (Examples.html_parser BlockquoteTagWithChildStrong.source)
    [convert_blockquote]
  = Raise TypeError /\
  test_blockquote_with_child_strong Examples.html_parser = Raise TypeError /\
  decode (Examples.html_parser BlockquoteTagWithChildStrong.result)
  = "<blockquote>«<strong>адАккарийский народ</strong>!</blockquote>".
Proof. repeat split; vm_compute; reflexivity. Qed.

Lemma dict_set_not_nil {V : Type} (d : dict V) k v : dict_set d k v <> [].
Proof.
  destruct d as [|[k0 v0] d]; simpl; [discriminate|].
  destruct (String.eqb k k0); discriminate.
Qed.

Lemma blockquote_loop_not_nil tags : forall acc : dict element,
  acc <> [] ->
  match
    for_loop tags
      (fun new_tags tag =>
         new_tag <- set_string (new_tag "blockquote") (string_ tag) ;;
         Ok (dict_update new_tags
               [(get_tag_position_call (sourceline tag) (sourcepos tag) None,
                 set_attrs new_tag
                   (filter (fun kv => negb (str_in (fst kv) ["class"]))
                      (attrs new_tag)))]))
      acc
  with
  | Ok d => d <> []
  | Raise _ => True
  end.
Proof.
  induction tags as [|t tags IH]; intros acc Hacc; [exact Hacc|].
  cbn [for_loop]. destruct (set_string _ _) as [nt|e]; [|exact I].
  cbn [bind]. apply IH. apply dict_set_not_nil.
Qed.

(** The converter gives [None] exactly on a body without blockquote tags. *)
Lemma convert_blockquote_none_iff (source_tag : element) :
  convert_blockquote source_tag = Ok None
  <-> find_all "blockquote" [] source_tag = [].
Proof.
  unfold convert_blockquote.
  destruct (find_all "blockquote" [] source_tag) as [|t tags].
  - split; reflexivity.
  - split; [|discriminate]. cbn [for_loop].
    destruct (set_string _ _) as [nt|e]; [|discriminate].
    cbn [bind].
    match goal with
    | |- context [for_loop tags ?f ?acc] =>
        pose proof (blockquote_loop_not_nil tags acc) as H;
        destruct (for_loop tags f acc) as [[|kv d]|e]
    end; cbn [bind]; try discriminate.
    exfalso. apply H; [apply dict_set_not_nil | reflexivity].
Qed.

(** C8 as stated fails: the body [_convert] made of the fixture of lines
    36-38 still holds a blockquote, and the converter run on it returns a
    mapping, not [None]. *)
Lemma convert_blockquote_rerun_counterexample :
  exists out,
    _convert (Examples.html_parser BlockquoteTag.source) [convert_blockquote]
    = Ok out /\
    convert_blockquote out
    = Ok (Some [("000None0None01",
                 Tag "blockquote" [] PyNone PyNone
                   [NavigableString "Будут ли разные виды феодализма?"])]) /\
    convert_blockquote out <> Ok None.
Proof.
  eexists. split; [vm_compute; reflexivity|].
  split; [vm_compute; reflexivity|]. vm_compute. discriminate.
Qed.

(** The tags the converter makes: a blockquote without attributes around
    one text. *)
Lemma blockquote_loop_invariant tags : forall acc d : dict element,
  NoDup (dict_keys acc) ->
  Forall (fun kv => plain_blockquote (snd kv)) acc ->
  for_loop tags
    (fun new_tags tag =>
       new_tag <- set_string (new_tag "blockquote") (string_ tag) ;;
       Ok (dict_update new_tags
             [(get_tag_position_call (sourceline tag) (sourcepos tag) None,
               set_attrs new_tag
                 (filter (fun kv => negb (str_in (fst kv) ["class"]))
                    (attrs new_tag)))]))
    acc = Ok d ->
  NoDup (dict_keys d) /\
  Forall (fun kv => plain_blockquote (snd kv)) d.
Proof.
  induction tags as [|t tags IH]; intros acc d Hnd Hall Hloop.
  - injection Hloop as <-. split; assumption.
  - cbn [for_loop] in Hloop.
    destruct (string_ t) as [s|]; [|discriminate].
    cbn [set_string new_tag bind] in Hloop.
    apply IH in Hloop; [exact Hloop | apply dict_set_nodup, Hnd |].
    cbn [fold_left fst snd set_attrs attrs filter].
    clear - Hall. induction acc as [|[k0 v0] acc IHacc]; simpl.
    + repeat constructor. exists s. reflexivity.
    + inversion Hall as [|? ? H0 Hrest]; subst.
      destruct (String.eqb _ k0); constructor; auto.
      exists s. reflexivity.
Qed.

Lemma convert_blockquote_some source_tag d :
  convert_blockquote source_tag = Ok (Some d) ->
  d <> [] /\ NoDup (dict_keys d) /\
  Forall (fun kv => plain_blockquote (snd kv)) d.
Proof.
  unfold convert_blockquote.
  destruct (for_loop _ _ _) as [new_tags|e] eqn:E; [|discriminate].
  cbn [bind]. destruct new_tags as [|kv more]; [discriminate|].
  cbn [List.length Nat.ltb Nat.leb]. intros H. injection H as <-.
  split; [discriminate|].
  apply (blockquote_loop_invariant _ [] _ (NoDup_nil _) (Forall_nil _) E).
Qed.

(** No attribute of a source tag reaches the tag made for it. *)
Lemma convert_blockquote_attrs_empty source_tag d k t :
  convert_blockquote source_tag = Ok (Some d) ->
  dict_get d k = Some t -> attrs t = [].
Proof.
  intros H Hk. apply convert_blockquote_some in H as (_ & _ & Hall).
  destruct (dict_get_Forall plain_blockquote _ _ _ Hall Hk) as [s ->].
  reflexivity.
Qed.

End Blockquote.

(** * More on the position encoder *)

Section PositionKeys.

Lemma length_append (a b : string) :
  String.length (a ++ b) = (String.length a + String.length b)%nat.
Proof. induction a as [|c a IH]; simpl; [reflexivity | now rewrite IH]. Qed.

Lemma length_repeat_char c n : String.length (repeat_char c n) = n.
Proof. induction n as [|n IH]; simpl; [reflexivity | now rewrite IH]. Qed.

(** [rjust] pads and never cuts. *)
Lemma length_rjust s w c :
  String.length (rjust s w c) = Nat.max w (String.length s).
Proof. unfold rjust. rewrite length_append, length_repeat_char. lia. Qed.

(** A number of at least [10 ^ w] is written with more than [w] digits. *)
Lemma length_str_overflow (w : nat) n :
  10 ^ Z.of_nat w <= n -> (w < String.length (str (PyInt n)))%nat.
Proof.
  intros Hn.
  assert (0 < 10 ^ Z.of_nat w) by (apply Z.pow_pos_nonneg; lia).
  unfold str, str_int.
  replace (n <? 0) with false by (symmetry; apply Z.ltb_ge; lia).
  unfold str_nonneg.
  pose proof (str_nonneg_fuel n ltac:(lia)) as Hf.
  destruct (digits_acc_zero_padded (S (Z.to_nat (Z.log2 n)))
              (S (Z.to_nat (Z.log2 n))) n "" Hf Hf ltac:(lia) ltac:(lia))
    as (k & Hk & Hnk & ->).
  rewrite zero_padded_acc_length. simpl String.length. rewrite Nat.add_0_r.
  assert (Z.of_nat w < Z.of_nat k); [|lia].
  apply (Z.pow_lt_mono_r_iff 10); lia.
Qed.

Lemma triple_compare_eq l1 p1 s1 l2 p2 s2 :
  triple_compare (l1, p1, s1) (l2, p2, s2) = Eq ->
  l1 = l2 /\ p1 = p2 /\ s1 = s2.
Proof.
  unfold triple_compare, lex.
  destruct (Z.compare_spec l1 l2); try discriminate.
  destruct (Z.compare_spec p1 p2); try discriminate.
  destruct (Z.compare_spec s1 s2); try discriminate.
  auto.
Qed.

(** X1.  Within the limits no two positions share a key: equal keys come
    from equal line, position and sequence. *)
Theorem get_tag_position_injective l1 p1 s1 l2 p2 s2 :
  in_range l1 p1 s1 -> in_range l2 p2 s2 ->
  get_tag_position (PyInt l1) (PyInt p1) (PyInt s1)
  = get_tag_position (PyInt l2) (PyInt p2) (PyInt s2) ->
  l1 = l2 /\ p1 = p2 /\ s1 = s2.
Proof.
  intros R1 R2 E. apply triple_compare_eq.
  rewrite <- (get_tag_position_compare _ _ _ _ _ _ R1 R2), E.
  apply string_compare_refl.
Qed.

Lemma get_tag_position_injective_witness :
  in_range 2 5 1 /\ in_range (1 + 1) 5 1 /\ 2 = 1 + 1.
Proof.
  assert (R1 : in_range 2 5 1) by (unfold in_range; lia).
  assert (R2 : in_range (1 + 1) 5 1) by (unfold in_range; lia).
  split; [exact R1|]. split; [exact R2|].
  apply (get_tag_position_injective 2 5 1 (1 + 1) 5 1 R1 R2). reflexivity.
Defined.

(** X2.  For components that are not negative the key has its 14
    characters exactly when every component is within its limit; a
    component beyond it makes the key longer, [rjust] never cuts. *)
Theorem get_tag_position_length l p s :
  0 <= l -> 0 <= p -> 0 <= s ->
  (String.length (get_tag_position (PyInt l) (PyInt p) (PyInt s)) = 14%nat
   <-> in_range l p s) /\
  (14 <= String.length (get_tag_position (PyInt l) (PyInt p) (PyInt s)))%nat.
Proof.
  intros Hl Hp Hs.
  assert (L : String.length (get_tag_position (PyInt l) (PyInt p) (PyInt s))
              = (Nat.max 7 (String.length (str (PyInt l)))
                 + (Nat.max 5 (String.length (str (PyInt p)))
                    + Nat.max 2 (String.length (str (PyInt s)))))%nat).
  { unfold get_tag_position. cbn [join].
    rewrite !length_append, !length_rjust. reflexivity. }
  split; [|rewrite L; lia].
  split.
  - intros E. rewrite L in E. unfold in_range.
    destruct (Z_lt_le_dec l (10 ^ 7)) as [?|Ol];
      [|pose proof (length_str_overflow 7 l Ol); lia].
    destruct (Z_lt_le_dec p (10 ^ 5)) as [?|Op];
      [|pose proof (length_str_overflow 5 p Op); lia].
    destruct (Z_lt_le_dec s (10 ^ 2)) as [?|Os];
      [|pose proof (length_str_overflow 2 s Os); lia].
    lia.
  - intros R. rewrite (get_tag_position_zero_padded _ _ _ R).
    rewrite !zero_padded_acc_length. reflexivity.
Qed.

Lemma get_tag_position_length_witness :
  (String.length
     (get_tag_position (PyInt 10000000) (PyInt 0) (PyInt 1)) = 14%nat
   <-> in_range 10000000 0 1) /\
  (14 <= String.length
           (get_tag_position (PyInt 10000000) (PyInt 0) (PyInt 1)))%nat.
Proof.
  apply (get_tag_position_length 10000000 0 1); lia.
Defined.

End PositionKeys.

(** * More on [_convert] *)

Section ConvertMore.

Local Open Scope list_scope.

Variable body : element.

Lemma for_loop_app {A S : Type} (f : S -> A -> Py.result S) l1 : forall l2 s,
  for_loop (l1 ++ l2) f s = bind (for_loop l1 f s) (for_loop l2 f).
Proof.
  induction l1 as [|x l1 IH]; intros l2 s; [reflexivity|].
  cbn [for_loop app]. destruct (f s x) as [s'|e]; [|reflexivity].
  cbn [bind]. apply IH.
Qed.

(** The first loop either goes through, or stops at the first converter
    that raises. *)
Lemma merge_loop_cases cs : forall acc,
  (exists rs, Forall2 (fun (c : converter) r => c body = Ok r) cs rs /\
              for_loop cs (merge_loop_body body) acc = Ok (fold_left merge_step rs acc)) \/
  (exists cs1 c cs2 e,
      cs = cs1 ++ c :: cs2 /\
      Forall (fun c' : converter => exists r, c' body = Ok r) cs1 /\
      c body = Raise e /\
      for_loop cs (merge_loop_body body) acc = Raise e).
Proof.
  induction cs as [|c cs IH]; intros acc.
  - left. exists []. split; [constructor | reflexivity].
  - destruct (c body) as [r|e] eqn:Ec.
    + assert (Hstep : forall rest,
                 for_loop (c :: rest) (merge_loop_body body) acc
                 = for_loop rest (merge_loop_body body) (merge_step acc r)).
      { intros rest. cbn [for_loop]. unfold merge_loop_body at 1.
        rewrite Ec. reflexivity. }
      destruct (IH (merge_step acc r))
        as [(rs & Hrs & Hloop) | (cs1 & c' & cs2 & e & -> & H1 & Hc' & Hloop)].
      * left. exists (r :: rs). split; [constructor; assumption|].
        rewrite Hstep. exact Hloop.
      * right. exists (c :: cs1), c', cs2, e.
        split; [reflexivity|]. split; [|split; [exact Hc'|]].
        -- constructor; [exists r; exact Ec | exact H1].
        -- rewrite Hstep. exact Hloop.
    + right. exists [], c, cs, e.
      split; [reflexivity|]. split; [constructor|]. split; [exact Ec|].
      cbn [for_loop]. unfold merge_loop_body at 1. rewrite Ec. reflexivity.
Qed.

(** The second loop finds every key it looks up. *)
Lemma append_loop_total (d : dict element) :
  exists vs,
    for_loop (sort (dict_keys d))
      (fun new_body position =>
         tag <- dict_getitem d position ;; Ok (append new_body tag))
      (BeautifulSoup [])
    = Ok (BeautifulSoup vs).
Proof.
  destruct (append_loop d (sort (dict_keys d)) []) as (vs & _ & Hloop).
  - intros k Hk. apply dict_get_some_iff.
    eapply Permutation_in; [apply sort_perm | exact Hk].
  - exists vs. exact Hloop.
Qed.

Lemma convert_raise_cases cs e :
  _convert body cs = Raise e <->
  exists cs1 c cs2,
    cs = cs1 ++ c :: cs2 /\
    Forall (fun c' : converter => exists r, c' body = Ok r) cs1 /\
    c body = Raise e.
Proof.
  unfold _convert. fold (merge_loop_body body). split.
  - destruct (merge_loop_cases cs [])
      as [(rs & _ & ->) | (cs1 & c & cs2 & e' & -> & H1 & Hc & ->)].
    + cbn [bind]. destruct (append_loop_total (fold_left merge_step rs []))
        as (vs & ->). discriminate.
    + cbn [bind]. intros E. injection E as <-.
      exists cs1, c, cs2. auto.
  - intros (cs1 & c & cs2 & -> & H1 & Hc).
    rewrite for_loop_app.
    assert (Hpre : forall acc, exists d, for_loop cs1 (merge_loop_body body) acc = Ok d).
    { clear - H1. induction H1 as [|c' cs1 [r Hr] _ IH]; intros acc.
      - exists acc. reflexivity.
      - cbn [for_loop]. unfold merge_loop_body at 1. rewrite Hr. cbn [bind].
        apply IH. }
    destruct (Hpre []) as (d & ->). cbn [bind for_loop].
    unfold merge_loop_body at 1. rewrite Hc. reflexivity.
Qed.

(** X3.  [_convert] raises exactly what the first converter that raises
    does, the converters before it having returned: no exception is its
    own, the lookups of the second loop never fail with [KeyError]. *)
Theorem convert_raises_iff cs e :
  _convert body cs = Raise e <->
  exists cs1 c cs2,
    cs = cs1 ++ c :: cs2 /\
    Forall (fun c' : converter => exists r, c' body = Ok r) cs1 /\
    c body = Raise e.
Proof. apply convert_raise_cases. Qed.

Lemma convert_skip cs1 c cs2 :
  contributes_nothing body c ->
  _convert body (cs1 ++ c :: cs2) = _convert body (cs1 ++ cs2).
Proof.
  intros Hc. unfold _convert. fold (merge_loop_body body).
  rewrite !for_loop_app.
  destruct (for_loop cs1 (merge_loop_body body) []) as [d|e]; [|reflexivity].
  cbn [bind for_loop]. unfold merge_loop_body at 1.
  destruct Hc as [-> | ->]; reflexivity.
Qed.


(** X5.  When no converter has anything to give, [_convert] returns the
    empty document. *)
Theorem convert_nothing_found cs :
  Forall (contributes_nothing body) cs ->
  _convert body cs = Ok (BeautifulSoup []).
Proof.
  induction 1 as [|c cs Hc _ IH]; [reflexivity|].
  change (c :: cs) with ([] ++ c :: cs).
  rewrite (convert_skip [] c cs Hc). exact IH.
Qed.

End ConvertMore.

Section ConvertWitnesses.


Lemma convert_nothing_found_witness :
  _convert (BeautifulSoup [NavigableString "text"])
    [convert_blockquote; fun _ => Ok (Some [])]
  = Ok (BeautifulSoup []).
Proof.
  apply (convert_nothing_found (BeautifulSoup [NavigableString "text"])
           [convert_blockquote; fun _ => Ok (Some [])]).
  constructor; [left; reflexivity|].
  constructor; [right; reflexivity | constructor].
Defined.

End ConvertWitnesses.

(** * What the output of [_convert] depends on *)

Section ConvertDetermined.

Local Open Scope list_scope.

(** Two strictly ascending lists with the same members are the same. *)
Lemma sorted_unique l1 : forall l2,
  StronglySorted key_lt l1 -> StronglySorted key_lt l2 ->
  (forall k, In k l1 <-> In k l2) -> l1 = l2.
Proof.
  induction l1 as [|x l1 IH]; intros [|y l2] S1 S2 Hin.
  - reflexivity.
  - exfalso. apply (proj2 (Hin y)). left. reflexivity.
  - exfalso. apply (proj1 (Hin x)). left. reflexivity.
  - inversion S1 as [|? ? S1' F1]; inversion S2 as [|? ? S2' F2]; subst.
    rewrite Forall_forall in F1, F2.
    assert (x = y) as ->.
    { destruct (proj1 (Hin x) (or_introl eq_refl)) as [E|Hx]; [auto|].
      destruct (proj2 (Hin y) (or_introl eq_refl)) as [E|Hy]; [auto|].
      exfalso. apply (key_lt_irrefl x).
      eapply key_lt_trans; [apply F1, Hy | apply F2, Hx]. }
    f_equal. apply IH; try assumption.
    intros k. split; intros Hk.
    + destruct (proj1 (Hin k) (or_intror Hk)) as [E|H]; [|exact H].
      subst. exfalso. apply (key_lt_irrefl k), F1, Hk.
    + destruct (proj2 (Hin k) (or_intror Hk)) as [E|H]; [|exact H].
      subst. exfalso. apply (key_lt_irrefl k), F2, Hk.
Qed.

Lemma Forall2_functional {A B : Type} (f : A -> option B) l : forall m m',
  Forall2 (fun a b => f a = Some b) l m ->
  Forall2 (fun a b => f a = Some b) l m' -> m = m'.
Proof.
  induction l as [|a l IH]; intros m m' H H'; inversion H; inversion H'; subst.
  - reflexivity.
  - f_equal; [congruence | eauto].
Qed.






Lemma last_binding_source {V : Type} k (rs : list (option (dict V))) v :
  last_binding k rs = Some v ->
  exists d, In (Some d) rs /\ dict_get d k = Some v.
Proof.
  induction rs as [|r rs IH]; [discriminate|].
  cbn [last_binding]. destruct (last_binding k rs) as [v'|].
  - intros E. destruct (IH E) as (d & Hd & Hk).
    exists d. split; [right; exact Hd | exact Hk].
  - destruct r as [d|]; [|discriminate]. simpl. intros E.
    exists d. split; [left; reflexivity | exact E].
Qed.

Lemma last_binding_all_keys {V : Type} k (rs : list (option (dict V))) :
  last_binding k rs <> None <-> In k (all_keys rs).
Proof.
  induction rs as [|r rs IH]; [simpl; split; [congruence | tauto]|].
  cbn [last_binding all_keys flat_map]. rewrite in_app_iff, <- IH.
  destruct (last_binding k rs) as [v|].
  - split; [right; discriminate | discriminate].
  - destruct r as [d|]; simpl.
    + rewrite (dict_get_some_iff d k). tauto.
    + tauto.
Qed.

End ConvertDetermined.

(** * More on [build] *)

Section BuildMore.

Variable html_parser : string -> element.

(** X8.  A page comes back only for a document that passed the four
    checks: its title is the [content] of the first [og:title] meta tag,
    its html what [_convert] made of the first body tag, its [url] and
    [path] are unset. *)
Theorem build_returns_only_checked source_html cs page :
  build html_parser source_html cs = Ok page ->
  let soup := html_parser source_html in
  precondition_fails soup = false /\
  exists tag body,
    find "meta" [("property", "og:title")] soup = Some tag /\
    find "body" [] soup = Some body /\
    title page = get tag "content" None /\
    _convert body cs = Ok (html page) /\
    url page = None /\ path page = None.
Proof.
  intros H soup. unfold build in H. fold soup in H.
  destruct (precondition_fails soup) eqn:E.
  - destruct (build_soup_fails soup cs E) as [m Hm]. congruence.
  - split; [reflexivity|].
    unfold precondition_fails, has_error_marker, has_placeholder,
      title_tag_absent, body_absent in E.
    destruct (find "div" [("class", "service_msg_error")] soup) eqn:E1;
      [discriminate|].
    destruct (find "div" [("class", "article_layer_placeholder__text")] soup)
      eqn:E2; [discriminate|].
    destruct (find "meta" [("property", "og:title")] soup) as [tag|] eqn:E3;
      [|discriminate].
    destruct (find "body" [] soup) as [body|] eqn:E4; [|discriminate].
    rewrite (build_soup_checked soup cs tag body E1 E2 E3 E4) in H.
    destruct (_convert body cs) as [out|e] eqn:Ec; [|discriminate].
    injection H as <-. exists tag, body. repeat split. exact Ec.
Qed.

(** X9.  Whatever the converters are, an exception leaving [build] is
    either the [HTMLParseError] of a failed check, or the exception a
    converter raised on the body of a document that passed the checks; the
    [AttributeError] of the title lookup never leaves it. *)
Theorem build_raises_only source_html cs e :
  build html_parser source_html cs = Raise e ->
  let soup := html_parser source_html in
  (precondition_fails soup = true /\ exists m, e = HTMLParseError m) \/
  (precondition_fails soup = false /\
   exists body c,
     find "body" [] soup = Some body /\ In c cs /\ c body = Raise e).
Proof.
  intros H soup. unfold build in H. fold soup in H.
  destruct (precondition_fails soup) eqn:E.
  - left. split; [reflexivity|].
    destruct (build_soup_fails soup cs E) as [m Hm].
    exists m. congruence.
  - right. split; [reflexivity|].
    unfold precondition_fails, has_error_marker, has_placeholder,
      title_tag_absent, body_absent in E.
    destruct (find "div" [("class", "service_msg_error")] soup) eqn:E1;
      [discriminate|].
    destruct (find "div" [("class", "article_layer_placeholder__text")] soup)
      eqn:E2; [discriminate|].
    destruct (find "meta" [("property", "og:title")] soup) as [tag|] eqn:E3;
      [|discriminate].
    destruct (find "body" [] soup) as [body|] eqn:E4; [|discriminate].
    rewrite (build_soup_checked soup cs tag body E1 E2 E3 E4) in H.
    destruct (_convert body cs) as [out|e'] eqn:Ec; [discriminate|].
    injection H as <-.
    apply convert_raise_cases in Ec as (cs1 & c & cs2 & -> & _ & Hc).
    exists body, c. split; [reflexivity|]. split; [|exact Hc].
    apply in_or_app. right. left. reflexivity.
Qed.

End BuildMore.

Section BuildMoreWitnesses.

Lemma build_returns_only_checked_witness :
  precondition_fails (Examples.html_parser Examples.two_quotes_html) = false.
Proof.
  apply (build_returns_only_checked Examples.html_parser
           Examples.two_quotes_html [convert_blockquote]
           (mkTelegraphPage (Some (AStr "Title"))
              (BeautifulSoup
                 [Tag "blockquote" [] PyNone PyNone [NavigableString "first"];
                  Tag "blockquote" [] PyNone PyNone
                    [NavigableString "second"]])
              None None)).
  reflexivity.
Defined.

Lemma build_raises_only_witness :
  let soup := Examples.html_parser Examples.two_quotes_html in
  (precondition_fails soup = true /\
   exists m, ConvertTagError "blockquote" 2 = HTMLParseError m) \/
  (precondition_fails soup = false /\
   exists body c,
     find "body" [] soup = Some body /\
     In c [Examples.convert_failing] /\
     c body = Raise (ConvertTagError "blockquote" 2)).
Proof.
  apply (build_raises_only Examples.html_parser Examples.two_quotes_html
           [Examples.convert_failing] (ConvertTagError "blockquote" 2)).
  reflexivity.
Defined.

End BuildMoreWitnesses.

(** * More on [convert_blockquote] *)

Section BlockquoteMore.

Local Open Scope list_scope.

(** The body of the loop of [convert_blockquote], lines 115-121. *)
Lemma blockquote_step (new_tags : dict element) tag :
  (new_tag <- set_string (new_tag "blockquote") (string_ tag) ;;
   Ok (dict_update new_tags
         [(get_tag_position_call (sourceline tag) (sourcepos tag) None,
           set_attrs new_tag
             (filter (fun kv => negb (str_in (fst kv) ["class"]))
                (attrs new_tag)))]))
  = match blockquote_entry tag with
    | Some kv => Ok (dict_set new_tags (fst kv) (snd kv))
    | None => Raise TypeError
    end.
Proof. unfold blockquote_entry. destruct (string_ tag); reflexivity. Qed.

Lemma blockquote_loop_entries tags : forall entries (acc : dict element),
  Forall2 (fun t kv => blockquote_entry t = Some kv) tags entries ->
  for_loop tags
    (fun new_tags tag =>
       new_tag <- set_string (new_tag "blockquote") (string_ tag) ;;
       Ok (dict_update new_tags
             [(get_tag_position_call (sourceline tag) (sourcepos tag) None,
               set_attrs new_tag
                 (filter (fun kv => negb (str_in (fst kv) ["class"]))
                    (attrs new_tag)))]))
    acc
  = Ok (dict_update acc entries).
Proof.
  induction tags as [|t tags IH]; intros entries acc H;
    inversion H as [|? kv ? entries' Hkv Hrest]; subst; [reflexivity|].
  cbn [for_loop]. rewrite blockquote_step, Hkv. cbn [bind].
  rewrite (IH entries' _ Hrest). reflexivity.
Qed.

Lemma blockquote_loop_raises tags : forall (acc : dict element) e,
  for_loop tags
    (fun new_tags tag =>
       new_tag <- set_string (new_tag "blockquote") (string_ tag) ;;
       Ok (dict_update new_tags
             [(get_tag_position_call (sourceline tag) (sourcepos tag) None,
               set_attrs new_tag
                 (filter (fun kv => negb (str_in (fst kv) ["class"]))
                    (attrs new_tag)))]))
    acc = Raise e
  <-> e = TypeError /\ exists t, In t tags /\ string_ t = None.
Proof.
  induction tags as [|t tags IH]; intros acc e.
  - simpl. split; [discriminate | intros (_ & t & [] & _)].
  - cbn [for_loop]. rewrite blockquote_step. unfold blockquote_entry.
    destruct (string_ t) as [s|] eqn:Es; cbn [bind].
    + rewrite IH. split.
      * intros (-> & t' & Ht' & Hs). split; [reflexivity|].
        exists t'. split; [right; exact Ht' | exact Hs].
      * intros (-> & t' & [<-|Ht'] & Hs); [congruence|].
        split; [reflexivity|]. exists t'. auto.
    + split.
      * intros E. injection E as <-. split; [reflexivity|].
        exists t. split; [left; reflexivity | exact Es].
      * intros (-> & _). reflexivity.
Qed.

(** X10.  [convert_blockquote] raises exactly when one of the quotes it
    finds has no [.string] (no child, several children, or such a tag as
    only child), and what it raises then is [TypeError]. *)
Theorem convert_blockquote_raises_iff source_tag e :
  convert_blockquote source_tag = Raise e
  <-> e = TypeError /\
      exists t, In t (find_all "blockquote" [] source_tag) /\
                string_ t = None.
Proof.
  rewrite <- (blockquote_loop_raises (find_all "blockquote" [] source_tag) [] e).
  unfold convert_blockquote.
  destruct (for_loop _ _ _) as [d|e']; cbn [bind]; split; congruence.
Qed.

Lemma dict_set_fresh {V : Type} (d : dict V) k v :
  ~ In k (dict_keys d) -> dict_set d k v = d ++ [(k, v)].
Proof.
  induction d as [|[k0 v0] d IH]; simpl; intros Hn; [reflexivity|].
  destruct (String.eqb_spec k k0) as [->|_]; [tauto|].
  rewrite IH by tauto. reflexivity.
Qed.

(** Updating with entries whose keys are new and distinct appends them. *)
Lemma dict_update_fresh {V : Type} (entries : dict V) : forall d,
  NoDup (dict_keys (d ++ entries)) -> dict_update d entries = d ++ entries.
Proof.
  unfold dict_update.
  induction entries as [|[k v] entries IH]; intros d Hnd; simpl.
  - now rewrite app_nil_r.
  - unfold dict_keys in Hnd. rewrite map_app in Hnd. simpl in Hnd.
    rewrite dict_set_fresh.
    + rewrite IH; [now rewrite <- app_assoc|].
      unfold dict_keys. rewrite <- app_assoc, map_app. exact Hnd.
    + apply NoDup_remove_2 in Hnd. intros Hk. apply Hnd, in_or_app.
      left. exact Hk.
Qed.

Lemma convert_blockquote_entries source_tag entries :
  Forall2 (fun t kv => blockquote_entry t = Some kv)
    (find_all "blockquote" [] source_tag) entries ->
  NoDup (dict_keys entries) ->
  convert_blockquote source_tag
  = Ok match entries with
       | [] => None
       | _ :: _ => Some entries
       end.
Proof.
  intros H Hnd. unfold convert_blockquote.
  rewrite (blockquote_loop_entries _ entries [] H). cbn [bind].
  rewrite (dict_update_fresh entries [] Hnd). cbn [app].
  destruct entries; reflexivity.
Qed.

(** X11.  When every quote found has a [.string] and no two quotes share a
    position key, the converter returns one entry per quote, in document
    order: the quote's key (sequence 1), and a new blockquote that has no
    attribute and no source position and holds the quote's text alone;
    [None] when there is no quote. *)
Theorem convert_blockquote_mapping source_tag entries :
  Forall2 (fun t kv => blockquote_entry t = Some kv)
    (find_all "blockquote" [] source_tag) entries ->
  NoDup (dict_keys entries) ->
  convert_blockquote source_tag
  = Ok match entries with
       | [] => None
       | _ :: _ => Some entries
       end.
Proof. apply convert_blockquote_entries. Qed.

Lemma two_quotes_entries :
  Forall2 (fun t kv => blockquote_entry t = Some kv)
    (find_all "blockquote" [] (Examples.quotes_body 42))
    Examples.two_quotes_converted.
Proof. repeat constructor. Qed.

Lemma convert_blockquote_mapping_witness :
  convert_blockquote (Examples.quotes_body 42)
  = Ok (Some Examples.two_quotes_converted).
Proof.
  apply (convert_blockquote_mapping (Examples.quotes_body 42)
           Examples.two_quotes_converted two_quotes_entries).
  repeat constructor; simpl; intuition discriminate.
Defined.

End BlockquoteMore.

(** * The blockquote converter under [_convert] *)

Section BlockquoteConvert.

Local Open Scope list_scope.

Lemma dict_get_app {V : Type} (d1 d2 : dict V) k :
  dict_get (d1 ++ d2) k
  = match dict_get d1 k with
    | Some v => Some v
    | None => dict_get d2 k
    end.
Proof.
  induction d1 as [|[k0 v0] d1 IH]; simpl; [reflexivity|].
  destruct (String.eqb k k0); [reflexivity | exact IH].
Qed.

(** In a mapping every key leads to its own value. *)
Lemma dict_self_lookup {V : Type} (d : dict V) : forall pre,
  NoDup (dict_keys (pre ++ d)) ->
  Forall2 (fun k v => dict_get (pre ++ d) k = Some v)
    (dict_keys d) (map snd d).
Proof.
  induction d as [|[k v] d IH]; intros pre Hnd; [constructor|].
  simpl. constructor.
  - rewrite dict_get_app. rewrite dict_get_none.
    + simpl. now rewrite String.eqb_refl.
    + unfold dict_keys in Hnd. rewrite map_app in Hnd. simpl in Hnd.
      apply NoDup_remove_2 in Hnd. intros Hk. apply Hnd, in_or_app.
      left. exact Hk.
  - specialize (IH (pre ++ [(k, v)])).
    rewrite <- app_assoc in IH. apply IH. exact Hnd.
Qed.

Lemma sorted_keys_nodup l : StronglySorted key_lt l -> NoDup l.
Proof.
  induction 1 as [|x l _ IH F]; constructor; [|exact IH].
  rewrite Forall_forall in F. intros Hx. apply (key_lt_irrefl x), F, Hx.
Qed.

(** X12.  Order is kept end to end: when the quotes found, taken in
    document order, have a [.string] each and keys that ascend (as the
    parser's lines and columns make them), [_convert] with the blockquote
    converter returns a document whose children are the new blockquotes in
    that same order. *)
Theorem convert_blockquote_document_order source_tag entries :
  Forall2 (fun t kv => blockquote_entry t = Some kv)
    (find_all "blockquote" [] source_tag) entries ->
  StronglySorted key_lt (dict_keys entries) ->
  _convert source_tag [convert_blockquote]
  = Ok (BeautifulSoup (map snd entries)).
Proof.
  intros H S. pose proof (sorted_keys_nodup _ S) as Hnd.
  pose proof (convert_blockquote_entries source_tag entries H Hnd) as Hc.
  set (r := match entries with [] => None | _ :: _ => Some entries end) in Hc.
  assert (Hb : forall k, last_binding k [r] = dict_get entries k).
  { intros k. unfold r. destruct entries; reflexivity. }
  destruct (convert_returns source_tag [convert_blockquote] [r])
    as (ks & vs & -> & S' & I & V).
  { constructor; [|constructor]. split; [exact Hc|].
    unfold r. destruct entries; [exact I | exact Hnd]. }
  assert (ks = dict_keys entries) as ->.
  { apply sorted_unique; try assumption.
    intros k. rewrite I, Hb. symmetry. apply dict_get_some_iff. }
  do 2 f_equal.
  apply (Forall2_functional (fun k => dict_get entries k) (dict_keys entries)).
  - eapply Forall2_impl; [|exact V]. intros k v Hk. simpl.
    rewrite <- Hb. exact Hk.
  - apply (dict_self_lookup entries []). exact Hnd.
Qed.

Lemma convert_blockquote_document_order_witness :
  _convert (Examples.quotes_body 42) [convert_blockquote]
  = Ok (BeautifulSoup
          [Tag "blockquote" [] PyNone PyNone [NavigableString "first"];
           Tag "blockquote" [] PyNone PyNone [NavigableString "second"]]).
Proof.
  apply (convert_blockquote_document_order (Examples.quotes_body 42)
           Examples.two_quotes_converted two_quotes_entries).
  repeat constructor.
Defined.

(** The quotes found in a document of new blockquotes are its children. *)
Lemma find_all_plain vs :
  Forall plain_blockquote vs ->
  find_all "blockquote" [] (BeautifulSoup vs) = vs.
Proof.
  unfold find_all. cbn [descendants].
  induction 1 as [|v vs [s ->] _ IH]; [reflexivity|].
  cbn [flat_map descendants app]. cbn [filter].
  change (matches_tag "blockquote" []
            (Tag "blockquote" [] PyNone PyNone [NavigableString s]))
    with true.
  change (matches_tag "blockquote" [] (NavigableString s)) with false.
  cbn iota. f_equal. exact IH.
Qed.

Lemma plain_entries vs :
  Forall plain_blockquote vs ->
  Forall2 (fun t kv => blockquote_entry t = Some kv) vs
    (map (fun v => ("000None0None01"%string, v)) vs).
Proof.
  induction 1 as [|v vs [s ->] _ IH]; simpl; constructor;
    [reflexivity | exact IH].
Qed.

(** Entries under one key leave the last of them. *)
Lemma dict_update_same_key {V : Type} (k : string) (vs : list V) :
  forall v (acc : dict V),
    acc = [] \/ (exists x, acc = [(k, x)]) ->
    dict_update acc (map (fun v => (k, v)) (vs ++ [v])) = [(k, v)].
Proof.
  unfold dict_update.
  induction vs as [|x vs IH]; intros v acc Hacc; simpl.
  - destruct Hacc as [-> | [y ->]]; simpl; [reflexivity|].
    now rewrite String.eqb_refl.
  - apply IH. right. exists x.
    destruct Hacc as [-> | [y ->]]; simpl; [reflexivity|].
    now rewrite String.eqb_refl.
Qed.

(** X13.  Converting twice loses quotes: the new blockquotes carry no
    source position, so in a document made of them all share the key
    [000None0None01]; the converter returns the last one alone, and
    [_convert] a document that holds only it. *)
Theorem convert_blockquote_twice_keeps_last vs v :
  Forall plain_blockquote (vs ++ [v]) ->
  convert_blockquote (BeautifulSoup (vs ++ [v]))
  = Ok (Some [("000None0None01"%string, v)]) /\
  _convert (BeautifulSoup (vs ++ [v])) [convert_blockquote]
  = Ok (BeautifulSoup [v]).
Proof.
  intros Hp.
  assert (Hc : convert_blockquote (BeautifulSoup (vs ++ [v]))
               = Ok (Some [("000None0None01"%string, v)])).
  { unfold convert_blockquote. rewrite (find_all_plain _ Hp).
    rewrite (blockquote_loop_entries _ _ [] (plain_entries _ Hp)).
    rewrite (dict_update_same_key "000None0None01" vs v []) by (left; reflexivity).
    reflexivity. }
  split; [exact Hc|].
  unfold _convert. cbn [for_loop]. rewrite Hc. reflexivity.
Qed.

Lemma convert_blockquote_twice_keeps_last_witness :
  _convert (BeautifulSoup (map snd Examples.two_quotes_converted))
    [convert_blockquote]
  = Ok (BeautifulSoup
          [Tag "blockquote" [] PyNone PyNone [NavigableString "second"]]).
Proof.
  apply (convert_blockquote_twice_keeps_last
           [Tag "blockquote" [] PyNone PyNone [NavigableString "first"]]
           (Tag "blockquote" [] PyNone PyNone [NavigableString "second"])).
  repeat constructor; eexists; reflexivity.
Defined.

End BlockquoteConvert.

(** * Tags as objects: [append] moves *)

Section Objects.

Local Open Scope list_scope.

Lemma object_induction (P : object -> Prop) :
  (forall s, P (OString s)) ->
  (forall id n a l p cs, Forall P cs -> P (OTag id n a l p cs)) ->
  forall o, P o.
Proof.
  intros Hs Ht. fix IH 1. intros [s|id n a l p cs]; [apply Hs|].
  apply Ht. revert cs. fix IHcs 1. intros [|c cs]; constructor.
  - apply IH.
  - apply IHcs.
Qed.

Lemma find_first_app {A B : Type} (f : A -> option B) l1 l2 :
  find_first f (l1 ++ l2)
  = match find_first f l1 with
    | Some b => Some b
    | None => find_first f l2
    end.
Proof.
  induction l1 as [|x l1 IH]; simpl; [reflexivity|].
  destruct (f x); [reflexivity | exact IH].
Qed.

Lemma find_first_none {A B : Type} (f : A -> option B) l :
  Forall (fun x => f x = None) l -> find_first f l = None.
Proof. induction 1 as [|x l Hx _ IH]; simpl; [reflexivity | now rewrite Hx]. Qed.

(** A tag that is not in a tree is not found there, and taking it out
    changes nothing. *)
Lemma find_in_absent id o :
  ~ In id (object_ids o) -> find_in id o = None.
Proof.
  induction o as [s|i n a l p cs IH] using object_induction; intros Hn;
    [reflexivity|].
  cbn [find_in]. cbn [object_ids] in Hn.
  destruct (Nat.eqb_spec i id) as [->|_]; [exfalso; apply Hn; left; reflexivity|].
  apply find_first_none. rewrite Forall_forall in *.
  intros c Hc. apply IH; [exact Hc|].
  intros Hin. apply Hn. right. apply in_flat_map. exists c. auto.
Qed.

Lemma remove_in_absent id o :
  ~ In id (object_ids o) -> remove_in id o = [o].
Proof.
  induction o as [s|i n a l p cs IH] using object_induction; intros Hn;
    [reflexivity|].
  cbn [remove_in]. cbn [object_ids] in Hn.
  destruct (Nat.eqb_spec i id) as [->|_]; [exfalso; apply Hn; left; reflexivity|].
  do 2 f_equal.
  assert (Hcs : forall c, In c cs -> ~ In id (object_ids c)).
  { intros c Hc Hin. apply Hn. right. apply in_flat_map. exists c. auto. }
  clear Hn. induction cs as [|c cs IHcs]; [reflexivity|].
  inversion IH as [|? ? Hc Hrest]; subst. cbn [flat_map].
  rewrite Hc by (apply Hcs; left; reflexivity).
  rewrite IHcs; [reflexivity | exact Hrest|].
  intros c' Hc'. apply Hcs. right. exact Hc'.
Qed.

Lemma find_object_absent id forest :
  ~ In id (flat_map object_ids forest) -> find_object id forest = None.
Proof.
  intros Hn. apply find_first_none. rewrite Forall_forall.
  intros o Ho. apply find_in_absent. intros Hin. apply Hn.
  apply in_flat_map. exists o. auto.
Qed.

Lemma remove_object_absent id forest :
  ~ In id (flat_map object_ids forest) -> remove_object id forest = forest.
Proof.
  unfold remove_object. induction forest as [|o forest IH]; intros Hn;
    [reflexivity|].
  cbn [flat_map] in *. rewrite in_app_iff in Hn.
  rewrite remove_in_absent by tauto. rewrite IH by tauto. reflexivity.
Qed.

Lemma remove_object_app id f1 f2 :
  remove_object id (f1 ++ f2) = remove_object id f1 ++ remove_object id f2.
Proof. unfold remove_object. apply flat_map_app. Qed.

Lemma object_id_tag o id :
  object_id o = Some id ->
  exists n a l p cs, o = OTag id n a l p cs.
Proof.
  destruct o as [s|i n a l p cs]; [discriminate|].
  intros E. injection E as ->. eauto 6.
Qed.

(** Moving a tag that has no parent and stands nowhere else: it leaves the
    other objects and becomes the last child. *)
Lemma append_object_root nb h1 r h2 id :
  object_id r = Some id ->
  NoDup (flat_map object_ids (nb ++ h1 ++ r :: h2)) ->
  append_object nb (h1 ++ r :: h2) id = (nb ++ [r], h1 ++ h2).
Proof.
  intros Hid Hnd.
  destruct (object_id_tag r id Hid) as (n & a & l & p & cs & ->).
  rewrite !flat_map_app in Hnd. cbn [flat_map object_ids] in Hnd.
  assert (Hnb : ~ In id (flat_map object_ids nb)).
  { intros Hin. rewrite app_assoc in Hnd.
    apply NoDup_remove_2 in Hnd. apply Hnd.
    rewrite !in_app_iff. left. left. exact Hin. }
  assert (Hh1 : ~ In id (flat_map object_ids h1)).
  { intros Hin. rewrite app_assoc in Hnd.
    apply NoDup_remove_2 in Hnd. apply Hnd.
    rewrite !in_app_iff. left. right. exact Hin. }
  assert (Hh2 : ~ In id (flat_map object_ids h2)).
  { intros Hin. rewrite app_assoc in Hnd.
    apply NoDup_remove_2 in Hnd. apply Hnd.
    rewrite !in_app_iff. right. right. exact Hin. }
  unfold append_object, find_object.
  rewrite !find_first_app.
  fold (find_object id nb). rewrite (find_object_absent id nb Hnb).
  fold (find_object id h1). rewrite (find_object_absent id h1 Hh1).
  cbn [find_first find_in]. rewrite Nat.eqb_refl.
  rewrite (remove_object_absent id nb Hnb).
  rewrite remove_object_app, (remove_object_absent id h1 Hh1).
  unfold remove_object at 1. cbn [flat_map remove_in]. rewrite Nat.eqb_refl.
  cbn [app]. fold (remove_object id h2).
  rewrite (remove_object_absent id h2 Hh2). reflexivity.
Qed.

(** The second loop on tags of their own: each is moved in its turn. *)
Lemma append_loop_fresh (d : dict nat) ks : forall ids nb heap,
  Forall2 (fun k id => dict_get d k = Some id) ks ids ->
  NoDup ids ->
  NoDup (flat_map object_ids (nb ++ heap)) ->
  (forall id, In id ids -> exists o, In o heap /\ object_id o = Some id) ->
  exists vs heap',
    for_loop_st ks (append_loop_body d) nb heap = (Ok (nb ++ vs), heap') /\
    Forall2 (fun id v => In v heap /\ object_id v = Some id) ids vs.
Proof.
  induction ks as [|k ks IH]; intros ids nb heap H Hids Hnd Hroot;
    inversion H as [|? id ? ids' Hk Hrest]; subst.
  - exists [], heap. split; [simpl; now rewrite app_nil_r | constructor].
  - destruct (Hroot id (or_introl eq_refl)) as (r & Hr & Hrid).
    apply in_split in Hr as (h1 & h2 & ->).
    inversion Hids as [|? ? Hnotin Hids']; subst.
    destruct (IH ids' (nb ++ [r]) (h1 ++ h2) Hrest Hids') as (vs & heap' & Hloop & Hvs).
    + eapply Permutation_NoDup; [|exact Hnd].
      rewrite <- app_assoc. apply Permutation_flat_map.
      apply Permutation_app_head. cbn [app].
      symmetry. apply Permutation_middle.
    + intros id' Hid'. destruct (Hroot id' (or_intror Hid')) as (o & Ho & Hoid).
      exists o. split; [|exact Hoid].
      apply in_app_or in Ho as [Ho|[<-|Ho]]; apply in_or_app; auto.
      exfalso. apply Hnotin. congruence.
    + exists (r :: vs), heap'. split.
      * cbn [for_loop_st]. unfold append_loop_body at 1, dict_getitem.
        rewrite Hk. rewrite (append_object_root nb h1 r h2 id Hrid Hnd).
        rewrite Hloop, <- app_assoc. reflexivity.
      * constructor.
        -- split; [apply in_or_app; right; left; reflexivity | exact Hrid].
        -- eapply Forall2_impl; [|exact Hvs].
           intros id' v [Hv Hvid]. split; [|exact Hvid].
           apply in_app_or in Hv as [Hv|Hv]; apply in_or_app;
             [left | right; right]; exact Hv.
Qed.

Lemma merge_loop_st {S : Type} body (cs : list (stateful_converter S)) :
  forall st rs st' acc,
    returns_all body cs st rs st' ->
    for_loop_st cs (merge_loop_body_st body) acc st
    = (Ok (fold_left merge_step rs acc), st').
Proof.
  induction cs as [|c cs IH]; intros st rs st' acc H;
    inversion H as [|? ? ? r st1 rs' ? Hc Hwf Hrest]; subst; [reflexivity|].
  cbn [for_loop_st fold_left]. unfold merge_loop_body_st at 1. rewrite Hc.
  apply IH, Hrest.
Qed.

Lemma returns_all_wf {S : Type} body (cs : list (stateful_converter S))
  st rs st' :
  returns_all body cs st rs st' ->
  Forall (fun r => match r with
                   | Some o => NoDup (dict_keys o)
                   | None => True
                   end) rs.
Proof. induction 1; constructor; assumption. Qed.

Lemma lookup_all {V : Type} (d : dict V) ks :
  (forall k, In k ks -> dict_get d k <> None) ->
  exists vs, Forall2 (fun k v => dict_get d k = Some v) ks vs.
Proof.
  induction ks as [|k ks IH]; intros H; [exists []; constructor|].
  destruct (dict_get d k) as [v|] eqn:E;
    [|exfalso; apply (H k (or_introl eq_refl) E)].
  destruct IH as [vs Hvs]; [intros k' Hk'; apply H; right; exact Hk'|].
  exists (v :: vs). constructor; assumption.
Qed.

Lemma Forall2_injective_nodup {A B : Type} (f : A -> option B) l : forall m,
  Forall2 (fun a b => f a = Some b) l m -> NoDup l ->
  (forall a1 a2 b, f a1 = Some b -> f a2 = Some b -> a1 = a2) ->
  NoDup m.
Proof.
  induction l as [|a l IH]; intros m H Hnd Hinj;
    inversion H as [|? b ? m' Hab Hrest]; subst; constructor.
  - inversion Hnd as [|? ? Hnotin _]; subst. intros Hb.
    apply In_nth_error in Hb as [i Hi].
    destruct (Forall2_nth_error _ _ _ _ _ (Forall2_flip Hrest) Hi)
      as (a' & Ha' & Hfa').
    apply nth_error_In in Ha'.
    rewrite (Hinj a a' b Hab Hfa') in Hnotin. contradiction.
  - inversion Hnd; subst. eapply IH; eassumption.
Qed.

(** What [_convert] returns when the converters return and the tags they
    gave are tags of their own: the tags of the merged mapping, by
    ascending key, each key once. *)
Lemma convert_objects_fresh {S : Type} body
  (cs : list (stateful_converter S)) st rs s' heap :
  returns_all body cs st rs (s', heap) -> fresh_tags heap rs ->
  exists ks vs heap',
    _convert_objects body cs st = (Ok vs, (s', heap')) /\
    StronglySorted key_lt ks /\
    (forall k, In k ks <-> last_binding k rs <> None) /\
    Forall2 (fun k v => exists id, last_binding k rs = Some id /\
                                   In v heap /\ object_id v = Some id) ks vs.
Proof.
  intros H (Hnd & Hroot & Hinj).
  pose proof (returns_all_wf _ _ _ _ _ H) as Hwf.
  set (d := fold_left merge_step rs []).
  assert (Hget : forall k, dict_get d k = last_binding k rs).
  { intros k. unfold d. rewrite merged_get by assumption.
    destruct (last_binding k rs); reflexivity. }
  assert (Hdk : NoDup (dict_keys d)) by (apply merged_nodup; constructor).
  pose proof (sort_perm (dict_keys d)) as Hperm.
  assert (Hks : StronglySorted key_lt (sort (dict_keys d))).
  { apply sorted_nodup_strict; [apply sort_sorted|].
    eapply Permutation_NoDup; [symmetry; exact Hperm | exact Hdk]. }
  assert (Hin : forall k, In k (sort (dict_keys d)) <-> last_binding k rs <> None).
  { intros k. rewrite <- Hget, <- dict_get_some_iff.
    split; apply Permutation_in; [exact Hperm | symmetry; exact Hperm]. }
  destruct (lookup_all d (sort (dict_keys d))) as (ids & Hids).
  { intros k Hk. rewrite Hget. apply Hin, Hk. }
  assert (Hidsnd : NoDup ids).
  { apply (Forall2_injective_nodup (dict_get d) _ _ Hids).
    - eapply Permutation_NoDup; [symmetry; exact Hperm | exact Hdk].
    - intros k1 k2 id. rewrite !Hget. apply Hinj. }
  destruct (append_loop_fresh d _ ids [] heap Hids Hidsnd Hnd)
    as (vs & heap' & Hloop & Hvs).
  { intros id Hid. apply In_nth_error in Hid as [i Hi].
    destruct (Forall2_nth_error _ _ _ _ _ (Forall2_flip Hids) Hi)
      as (k & _ & Hk).
    apply (Hroot k). rewrite <- Hget. exact Hk. }
  exists (sort (dict_keys d)), vs, heap'. split; [|split; [exact Hks|split; [exact Hin|]]].
  - unfold _convert_objects. rewrite (merge_loop_st body cs st rs (s', heap) [] H).
    fold d. rewrite Hloop. reflexivity.
  - clear - Hids Hvs Hget. revert vs Hvs.
    induction Hids as [|k id ks ids Hk _ IH]; intros vs Hvs;
      inversion Hvs as [|? v ? vs' [Hv Hvid] Hrest]; subst; constructor.
    + exists id. rewrite <- Hget. auto.
    + apply IH, Hrest.
Qed.

End Objects.

(** * Order of the output, on objects *)

Section OrderOnObjects.

Local Open Scope list_scope.


Lemma two_quotes_fresh :
  fresh_tags
    [OTag 1 "blockquote" [] PyNone PyNone [OString "first"];
     OTag 2 "blockquote" [] PyNone PyNone [OString "second"]]
    [Some [("00000020000501"%string, 1%nat); ("00000050000101"%string, 2%nat)]].
Proof.
  split; [|split].
  - repeat constructor; simpl; intuition discriminate.
  - intros k id. cbn [last_binding binding dict_get].
    destruct (String.eqb k "00000020000501");
      [|destruct (String.eqb k "00000050000101")];
      intros E; try discriminate; injection E as <-.
    + eexists. split; [left; reflexivity | reflexivity].
    + eexists. split; [right; left; reflexivity | reflexivity].
  - intros k1 k2 id. cbn [last_binding binding dict_get].
    destruct (String.eqb_spec k1 "00000020000501") as [->|_];
      [|destruct (String.eqb_spec k1 "00000050000101") as [->|_]];
      (destruct (String.eqb_spec k2 "00000020000501") as [->|_];
       [|destruct (String.eqb_spec k2 "00000050000101") as [->|_]]);
      intros E1 E2; congruence.
Qed.



End OrderOnObjects.

(** * Two calls of [build] *)

Section TwoCalls.

Local Open Scope list_scope.

Lemma root_object_unique heap : forall v id,
  NoDup (flat_map object_ids heap) ->
  In v heap -> object_id v = Some id -> root_object heap id = Some v.
Proof.
  unfold root_object.
  induction heap as [|o heap IH]; intros v id Hnd Hv Hid; [destruct Hv|].
  cbn [flat_map] in Hnd. cbn [List.find].
  destruct (object_id o) as [i|] eqn:Eo.
  - destruct (Nat.eqb_spec i id) as [->|Hne].
    + destruct Hv as [->|Hv]; [reflexivity|]. exfalso.
      destruct (object_id_tag o id Eo) as (n & a & l & p & cs & ->).
      cbn [object_ids app] in Hnd. inversion Hnd as [|? ? Hnotin _]; subst.
      apply Hnotin, in_or_app. right.
      apply in_flat_map. exists v. split; [exact Hv|].
      destruct (object_id_tag v id Hid) as (n' & a' & l' & p' & cs' & ->).
      left. reflexivity.
    + destruct Hv as [->|Hv]; [congruence|].
      apply IH; try assumption.
      apply NoDup_app_remove_l in Hnd. exact Hnd.
  - destruct Hv as [->|Hv]; [congruence|].
    apply IH; try assumption.
    apply NoDup_app_remove_l in Hnd. exact Hnd.
Qed.

Lemma dict_get_map {V W : Type} (g : V -> W) (d : dict V) k :
  dict_get (map (fun kv => (fst kv, g (snd kv))) d) k
  = option_map g (dict_get d k).
Proof.
  induction d as [|[k0 v0] d IH]; simpl; [reflexivity|].
  destruct (String.eqb k k0); [reflexivity | exact IH].
Qed.




End TwoCalls.

Section TwoCallsExamples.

Local Open Scope list_scope.




End TwoCallsExamples.

(** * Objects and values *)

Section ObjectsAndValues.

Local Open Scope list_scope.

Lemma last_binding_erased heap k rs :
  last_binding k (map (erased_mapping heap) rs)
  = option_map (erased_value heap) (last_binding k rs).
Proof.
  induction rs as [|r rs IH]; [reflexivity|].
  cbn [map last_binding]. rewrite IH.
  destruct (last_binding k rs); [reflexivity|].
  destruct r as [d|]; [|reflexivity].
  cbn [erased_mapping option_map binding]. apply dict_get_map.
Qed.

(** On tags of their own the two readings of [_convert] agree: the new
    document on objects, its identities forgotten, is the document
    [_convert] returns for converters that give the values of those tags. *)
Lemma convert_objects_values {S : Type} body
  (cs : list (stateful_converter S)) st rs s' heap :
  returns_all body cs st rs (s', heap) -> fresh_tags heap rs ->
  exists vs heap',
    _convert_objects body cs st = (Ok vs, (s', heap')) /\
    _convert body (map (fun r _ => Ok (erased_mapping heap r)) rs)
    = Ok (BeautifulSoup (map erase vs)).
Proof.
  intros H F.
  destruct (convert_objects_fresh body cs st rs s' heap H F)
    as (ks & vs & heap' & Hc & Hs & Hin & Hv).
  exists vs, heap'. split; [exact Hc|].
  destruct (convert_returns body
              (map (fun r _ => Ok (erased_mapping heap r)) rs)
              (map (erased_mapping heap) rs))
    as (ks' & vs' & -> & Hs' & Hin' & Hv').
  { pose proof (returns_all_wf _ _ _ _ _ H) as Hwf. clear - Hwf.
    induction Hwf as [|r rs Hr _ IH]; simpl; constructor; [|exact IH].
    split; [reflexivity|]. destruct r as [d|]; [|exact I]. simpl.
    unfold dict_keys in *. rewrite map_map. simpl. exact Hr. }
  assert (ks' = ks) as ->.
  { apply sorted_unique; try assumption.
    intros k. rewrite Hin, Hin', last_binding_erased.
    destruct (last_binding k rs); simpl; split; congruence. }
  do 2 f_equal.
  apply (Forall2_functional
           (fun k => option_map (erased_value heap) (last_binding k rs)) ks).
  - eapply Forall2_impl; [|exact Hv']. intros k v Hk. simpl.
    rewrite <- last_binding_erased. exact Hk.
  - destruct F as (Hnd & _ & _). clear - Hv Hnd.
    induction Hv as [|k v ks vs (id & Hk & Hvin & Hvid) _ IH]; simpl;
      constructor; [|exact IH].
    rewrite Hk. simpl. unfold erased_value.
    rewrite (root_object_unique heap v id Hnd Hvin Hvid). reflexivity.
Qed.

(** X7.  When the converters return and the tags of the merged mapping are
    tags of their own, the document [_convert] returns holds one tag for
    each distinct key the converters gave, and every tag in it is an
    object that some converter's mapping gives: none is made up, none is
    left out. *)
Theorem convert_output_from_converters {S : Type} body
  (cs : list (stateful_converter S)) st rs s' heap :
  returns_all body cs st rs (s', heap) -> fresh_tags heap rs ->
  exists vs heap',
    _convert_objects body cs st = (Ok vs, (s', heap')) /\
    List.length vs = List.length (nodup string_dec (all_keys rs)) /\
    (forall v, In v vs ->
               In v heap /\
               exists d k id, In (Some d) rs /\ dict_get d k = Some id /\
                              object_id v = Some id) /\
    (forall d k, In (Some d) rs -> In k (dict_keys d) ->
                 exists v id, In v vs /\ last_binding k rs = Some id /\
                              object_id v = Some id).
Proof.
  intros H F.
  destruct (convert_objects_fresh body cs st rs s' heap H F)
    as (ks & vs & heap' & Hc & Hs & Hin & Hv).
  exists vs, heap'. split; [exact Hc|]. split; [|split].
  - rewrite <- (Forall2_length Hv). apply Permutation_length.
    apply NoDup_Permutation.
    + apply sorted_keys_nodup, Hs.
    + apply NoDup_nodup.
    + intros k. rewrite nodup_In, Hin. apply last_binding_all_keys.
  - intros v Hvin. apply In_nth_error in Hvin as [i Hi].
    destruct (Forall2_nth_error _ _ _ _ _ (Forall2_flip Hv) Hi)
      as (k & _ & id & Hk & Hheap & Hid).
    split; [exact Hheap|].
    destruct (last_binding_source k rs id Hk) as (d & Hd & Hdk).
    exists d, k, id. auto.
  - intros d k Hd Hk.
    assert (Hkin : In k ks).
    { apply Hin, last_binding_all_keys. unfold all_keys.
      apply in_flat_map. exists (Some d). auto. }
    apply In_nth_error in Hkin as [i Hi].
    destruct (Forall2_nth_error _ _ _ _ _ Hv Hi)
      as (v & Hvi & id & Hlb & _ & Hid).
    exists v, id. split; [eapply nth_error_In; exact Hvi | auto].
Qed.

Lemma convert_output_from_converters_witness :
  exists vs heap',
    _convert_objects (Examples.quotes_body 42) [Callables.convert_two_quotes]
      (tt, [])
    = (Ok vs, (tt, heap')) /\
    List.length vs = 2%nat.
Proof.
  destruct (convert_output_from_converters (Examples.quotes_body 42)
              [Callables.convert_two_quotes] (tt, [])
              [Some [("00000020000501"%string, 1%nat);
                     ("00000050000101"%string, 2%nat)]]
              tt
              [OTag 1 "blockquote" [] PyNone PyNone [OString "first"];
               OTag 2 "blockquote" [] PyNone PyNone [OString "second"]])
    as (vs & heap' & Hc & Hl & _).
  - econstructor; [reflexivity | | constructor].
    repeat constructor; simpl; intuition discriminate.
  - exact two_quotes_fresh.
  - exists vs, heap'. split; [exact Hc | exact Hl].
Defined.

End ObjectsAndValues.

(** * Running the blockquote converter again *)

Section Rerun.

Local Open Scope list_scope.

Lemma convert_blockquote_on_plain vs v :
  Forall plain_blockquote (vs ++ [v]) ->
  convert_blockquote (BeautifulSoup (vs ++ [v]))
  = Ok (Some [("000None0None01"%string, v)]).
Proof.
  intros Hp. unfold convert_blockquote. rewrite (find_all_plain _ Hp).
  rewrite (blockquote_loop_entries _ _ [] (plain_entries _ Hp)).
  rewrite (dict_update_same_key "000None0None01" vs v [])
    by (left; reflexivity).
  reflexivity.
Qed.

(** C8, amended.  On the body that [_convert] made with the blockquote
    converter, the converter gives [None] exactly when the source body held
    no blockquote, the converted body being empty then.  Otherwise the
    converted body holds the new blockquotes, which are blockquotes still,
    and the converter returns a mapping that is not empty: its one entry,
    under the key [000None0None01], is the last of them. *)
Theorem convert_blockquote_rerun body out :
  _convert body [convert_blockquote] = Ok out ->
  (find_all "blockquote" [] body = [] ->
   out = BeautifulSoup [] /\ convert_blockquote out = Ok None) /\
  (find_all "blockquote" [] body <> [] ->
   exists vs v,
     out = BeautifulSoup (vs ++ [v]) /\
     Forall plain_blockquote (vs ++ [v]) /\
     convert_blockquote out = Ok (Some [("000None0None01"%string, v)])) /\
  (convert_blockquote out = Ok None
   <-> find_all "blockquote" [] body = []).
Proof.
  intros H.
  destruct (convert_blockquote body) as [[d|]|e] eqn:E.
  - pose proof E as Hsome.
    apply convert_blockquote_some in Hsome as (Hne & Hnd & Hall).
    assert (Hbody : find_all "blockquote" [] body <> []).
    { intros Hnil. apply convert_blockquote_none_iff in Hnil. congruence. }
    destruct (convert_returns body [convert_blockquote] [Some d])
      as (ks & vs & Hc & _ & Hin & Hv).
    { constructor; [split; assumption | constructor]. }
    rewrite Hc in H. injection H as <-.
    assert (Hplain : Forall plain_blockquote vs).
    { clear - Hv Hall. induction Hv as [|k v ks vs Hk _ IH]; constructor;
        [|exact IH].
      change (dict_get d k = Some v) in Hk.
      exact (dict_get_Forall plain_blockquote _ _ _ Hall Hk). }
    assert (Hvs : vs <> []).
    { destruct d as [|[k0 v0] d]; [congruence|].
      assert (Hk0 : In k0 ks).
      { apply Hin. simpl. rewrite String.eqb_refl. discriminate. }
      intros ->. inversion Hv; subst. destruct Hk0. }
    destruct (exists_last Hvs) as (vs0 & v & ->).
    pose proof (convert_blockquote_on_plain vs0 v Hplain) as Hre.
    split; [intros Hnil; contradiction|]. split.
    + intros _. exists vs0, v. auto.
    + rewrite Hre. split; [discriminate | intros Hnil; contradiction].
  - assert (Hnil : find_all "blockquote" [] body = [])
      by (apply convert_blockquote_none_iff, E).
    unfold _convert in H. cbn [for_loop] in H. rewrite E in H.
    cbn [bind for_loop sort dict_keys map fold_left] in H.
    injection H as <-.
    split; [intros _; split; reflexivity|]. split.
    + intros Hne. contradiction.
    + split; [intros _; exact Hnil | reflexivity].
  - unfold _convert in H. cbn [for_loop] in H. rewrite E in H.
    discriminate H.
Qed.

Lemma convert_blockquote_rerun_witness :
  exists vs v,
    BeautifulSoup
      [Tag "blockquote" [] PyNone PyNone [NavigableString "first"];
       Tag "blockquote" [] PyNone PyNone [NavigableString "second"]]
    = BeautifulSoup (vs ++ [v]) /\
    Forall plain_blockquote (vs ++ [v]) /\
    convert_blockquote
      (BeautifulSoup
         [Tag "blockquote" [] PyNone PyNone [NavigableString "first"];
          Tag "blockquote" [] PyNone PyNone [NavigableString "second"]])
    = Ok (Some [("000None0None01"%string, v)]).
Proof.
  destruct (convert_blockquote_rerun (Examples.quotes_body 42)
              (BeautifulSoup
                 [Tag "blockquote" [] PyNone PyNone [NavigableString "first"];
                  Tag "blockquote" [] PyNone PyNone
                    [NavigableString "second"]])
              eq_refl) as (_ & H & _).
  apply H. vm_compute. discriminate.
Defined.


End Rerun.
